(** * Uniform detection service: the classification path and the report path

    A shallow embedding of [app.js]: the decision rule applied to the
    classifier output, the [/detect-image] handler with the model guard and
    the tensor bookkeeping of the TensorFlow engine, the [$sort]/[$group]
    aggregation behind the teacher dashboard, and the CSV export. *)

From Stdlib Require Import QArith Qcanon Ascii String.
From stdpp Require Import gmap list sorting numbers strings pretty.

Local Open Scope Z_scope.

(** ** JavaScript numbers, as far as the handler looks at them

    [preds.dataSync()] yields a [Float32Array]; reading an element gives a
    JavaScript number.  A number is [NaN], an infinity, or a finite value;
    finite values are embedded in the rationals, where [<] and [===] of
    JavaScript agree with the order and the equality ([+0] and [-0] are
    identified, as [===] identifies them). *)
Inductive num : Type :=
  | NaN
  | NegInf
  | Fin (q : Qc)
  | PosInf.

Global Instance num_eq_dec : EqDecision num.
Proof. solve_decision. Defined.

(** [x < y] of JavaScript: false as soon as one side is [NaN]. *)
Definition num_ltb (x y : num) : bool :=
  match x, y with
  | NaN, _ | _, NaN => false
  | NegInf, NegInf => false
  | NegInf, _ => true
  | Fin _, NegInf => false
  | Fin a, Fin b => bool_decide (a < b)%Qc
  | Fin _, PosInf => true
  | PosInf, _ => false
  end.

(** [x === y] on numbers: [NaN] is equal to nothing, itself included. *)
Definition strict_eqb (x y : num) : bool :=
  match x, y with
  | NaN, _ | _, NaN => false
  | _, _ => bool_decide (x = y)
  end.

Definition is_nan (x : num) : bool :=
  match x with NaN => true | _ => false end.

(** [Math.max(...args)]: starts from [-Infinity], answers [NaN] as soon as
    an argument is [NaN], otherwise keeps the larger value. *)
Fixpoint max_from (highest : num) (args : list num) : num :=
  match args with
  | [] => highest
  | x :: rest =>
      if is_nan x then NaN
      else max_from (if num_ltb highest x then x else highest) rest
  end.

Definition Math_max (args : list num) : num := max_from NegInf args.

(** [data.indexOf(x)]: the first index whose element is [===] to [x], and
    [-1] when there is none. *)
Fixpoint indexOf_from (k : Z) (data : list num) (x : num) : Z :=
  match data with
  | [] => -1
  | y :: rest => if strict_eqb y x then k else indexOf_from (k + 1) rest x
  end.

Definition indexOf (data : list num) (x : num) : Z := indexOf_from 0 data x.

(** [data[i]] on a typed array: [undefined] (here [None]) outside
    [0 .. length-1]. *)
Definition at_index (data : list num) (i : Z) : option num :=
  if bool_decide (i < 0) then None else data !! Z.to_nat i.

(** ** The decision rule of the handler

<<
    const maxIdx = data.indexOf(Math.max(...data));
    const label = maxIdx === 0 ? "uniform" : "not-uniform";
    const confidence = data[maxIdx];
>> *)
Definition maxIdx (data : list num) : Z := indexOf data (Math_max data).

Definition label_of (idx : Z) : string :=
  if bool_decide (idx = 0) then "uniform" else "not-uniform".

Definition decide_label (data : list num) : string := label_of (maxIdx data).

Definition decide_confidence (data : list num) : option num :=
  at_index data (maxIdx data).

Definition decision_rule (data : list num) : string * option num :=
  (decide_label data, decide_confidence data).

(** The order on numbers without [NaN] that [num_ltb] decides. *)
Definition num_le (x y : num) : Prop := num_ltb y x = false.

Definition no_nan (data : list num) : Prop := Forall (λ x, x ≠ NaN) data.

Definition half : Qc := Q2Qc (1 # 2).

(** ** Stored documents

    An [ObjectId] is a 12-byte value; [toString()] renders it as 24
    hexadecimal digits, one string per id, so a JavaScript object keyed by
    [_id.toString()] is a finite map keyed by the id. *)
Abbreviation ObjectId := N (only parsing).

(** A document of the [detections] collection, as [Detection.create]
    receives its fields in the handler, with the [createdAt] the store
    assigns.  [confidence] is [None] when the handler passes [undefined]. *)
Record Detection : Type := mkDetection {
  user : ObjectId;
  username : string;
  label : string;
  confidence : option num;
  isCompliant : bool;
  source : string;
  createdAt : Z;
}.

Global Instance Detection_eq_dec : EqDecision Detection.
Proof. solve_decision. Defined.

(** A document of the [users] collection, as far as the export reads it.
    A field that is absent from the document is [undefined] (here [None]). *)
Record User : Type := mkUser {
  s_id : ObjectId;
  s_username : string;
  s_email : string;
  s_department : option string;
  s_year : option string;
  s_division : option string;
  s_role : string;
}.

(** ** The aggregation pipeline

<<
    Detection.aggregate([
      { $sort: { createdAt: -1 } },
      { $group: { _id: "$user",
                  lastIsCompliant: { $first: "$isCompliant" },
                  lastAt: { $first: "$createdAt" } } } ])
>> *)
Record Group : Type := mkGroup {
  _id : ObjectId;
  lastIsCompliant : bool;
  lastAt : Z;
}.

Global Instance Group_eq_dec : EqDecision Group.
Proof. solve_decision. Defined.

(** The order [{ createdAt: -1 }] asks for. *)
Definition newer_first (a b : Detection) : Prop := createdAt b ≤ createdAt a.

Global Instance newer_first_dec : RelDecision newer_first.
Proof. intros a b. unfold newer_first. apply _. Defined.

(** What the [$sort] stage may hand to the next stage: the documents of the
    collection rearranged in descending [createdAt].  The order among
    documents with equal [createdAt] is the database's choice. *)
Definition sort_stage (coll out : list Detection) : Prop :=
  out ≡ₚ coll ∧ StronglySorted newer_first out.

(** A [$sort] stage: one admissible arrangement for every collection. *)
Class SortStage : Type := {
  sort_createdAt_desc : list Detection → list Detection;
  sort_createdAt_desc_ok : ∀ coll, sort_stage coll (sort_createdAt_desc coll);
}.

(** [$first] accumulators of a group, filled from the first document seen. *)
Definition first_of (d : Detection) : Group :=
  {| _id := user d; lastIsCompliant := isCompliant d; lastAt := createdAt d |}.

Definition has_group (acc : list Group) (k : ObjectId) : bool :=
  existsb (λ g, bool_decide (_id g = k)) acc.

(** [$group] reads the documents in the order it receives them; a key seen
    before keeps its accumulators. *)
Definition group_step (acc : list Group) (d : Detection) : list Group :=
  if has_group acc (user d) then acc else acc ++ [first_of d].

Definition group_first (docs : list Detection) : list Group :=
  foldl group_step [] docs.

Definition Detection_aggregate `{SortStage} (coll : list Detection) : list Group :=
  group_first (sort_createdAt_desc coll).

(** [detections.forEach((d) => (map[d._id.toString()] = d))] *)
Definition uniformMap (detections : list Group) : gmap N Group :=
  foldl (λ m d, <[_id d := d]> m) ∅ detections.

(** The per-subject status of a collection whose [$sort] output is [sorted]. *)
Definition latestPerSubject (sorted : list Detection) : gmap N Group :=
  uniformMap (group_first sorted).

(** The documents of one subject, in the order of the list. *)
Definition events_of (k : ObjectId) (docs : list Detection) : list Detection :=
  filter (λ d, user d = k) docs.

(** One [$sort]: merge sort.  It is one admissible arrangement among
    others; documents with equal [createdAt] need not come out in the order
    of the collection. *)
Definition stable_sort (coll : list Detection) : list Detection :=
  merge_sort newer_first coll.

(** The group of a key among the groups accumulated so far. *)
Definition group_of (k : ObjectId) (acc : list Group) : option Group :=
  head (filter (λ g, _id g = k) acc).

Global Instance newer_first_total : Total newer_first.
Proof. intros a b. unfold newer_first. lia. Qed.

Global Instance newer_first_trans : Transitive newer_first.
Proof. intros a b c. unfold newer_first. lia. Qed.

Lemma stable_sort_ok (coll : list Detection) : sort_stage coll (stable_sort coll).
Proof.
  split.
  - apply merge_sort_Permutation.
  - apply StronglySorted_merge_sort; apply _.
Qed.

(** Every collection has an admissible arrangement: merge sort is a
    [$sort] stage. *)
Definition stable_stage : SortStage :=
  {| sort_createdAt_desc := stable_sort; sort_createdAt_desc_ok := stable_sort_ok |}.

(** ** The CSV export *)

(** How a [Date] prints inside a template literal. *)
Class DateFormat : Type := Date_toString : Z → string.

Definition dq : string := String "034"%char EmptyString.
Definition nl : string := String "010"%char EmptyString.

(** [`${v}`] for a value that is a string or [undefined]. *)
Definition interpolate (v : option string) : string :=
  match v with Some s => s | None => "undefined" end.

(** <<
    const status = info
      ? info.lastIsCompliant ? "Uniform OK" : "Not in Uniform"
      : "No Data";
>> *)
Definition status (info : option Group) : string :=
  match info with
  | Some g => if lastIsCompliant g then "Uniform OK" else "Not in Uniform"
  | None => "No Data"
  end.

(** [info?.lastAt || ""] inside the template literal. *)
Definition last_checked `{DateFormat} (info : option Group) : string :=
  match info with
  | Some g => Date_toString (lastAt g)
  | None => EmptyString
  end.

(** The seven values interpolated into one line. *)
Definition row_fields `{DateFormat} (s : User) (info : option Group) : list string :=
  [ s_username s; s_email s; interpolate (s_department s);
    interpolate (s_year s); interpolate (s_division s);
    status info; last_checked info ].

Definition quoted (f : string) : string := dq +:+ f +:+ dq.

Fixpoint join_comma (fs : list string) : string :=
  match fs with
  | [] => EmptyString
  | [f] => f
  | f :: rest => f +:+ "," +:+ join_comma rest
  end.

(** The text of a line before its line feed: every value between double
    quotes, values separated by commas. *)
Definition csv_record (fields : list string) : string :=
  join_comma (quoted <$> fields).

Definition csv_line (fields : list string) : string :=
  csv_record fields +:+ nl.

Definition csv_header : string :=
  "Username,Email,Department,Year,Division,Uniform Status,Last Checked" +:+ nl.

Definition report_row `{DateFormat} (map : gmap N Group) (s : User) : list string :=
  row_fields s (map !! s_id s).

(** [students.forEach((s) => { ... csv += ... })] *)
Definition export_csv `{DateFormat} (students : list User) (map : gmap N Group) : string :=
  foldl (λ csv s, csv +:+ csv_line (report_row map s)) csv_header students.

(** [User.find({ role: "student" })] *)
Definition find_students (users : list User) : list User :=
  filter (λ u, s_role u = "student") users.

(** The rows of the report, one list of values per line of the export. *)
Definition report_rows `{DateFormat} (students : list User) (map : gmap N Group)
  : list (list string) :=
  report_row map <$> students.

(** The text of the lines, one after the other. *)
Definition lines_text (rows : list (list string)) : string :=
  foldr (λ row rest, csv_line row +:+ rest) EmptyString rows.

(** ** Reading a line of the export back

    The reader of the delimited format the export targets (comma separated
    values, RFC 4180): a value that opens with a double quote runs to its
    closing double quote, a doubled double quote inside it stands for one,
    and a closing quote is followed by a comma or by the end of the record.
    It is the yardstick for the text [csv_record] writes, not part of the
    service. *)
Inductive reader_state : Type := FieldStart | Unquoted | Quoted | QuoteSeen.

Definition comma : ascii := ","%char.
Definition dquote : ascii := "034"%char.

Definition snoc_char (s : string) (c : ascii) : string :=
  s +:+ String c EmptyString.

Fixpoint read_record (st : reader_state) (cur input : string) : option (list string) :=
  match input with
  | EmptyString =>
      match st with
      | Quoted => None
      | _ => Some [cur]
      end
  | String c rest =>
      match st with
      | FieldStart =>
          if bool_decide (c = dquote) then read_record Quoted cur rest
          else if bool_decide (c = comma)
               then cons cur <$> read_record FieldStart EmptyString rest
               else read_record Unquoted (snoc_char cur c) rest
      | Unquoted =>
          if bool_decide (c = comma)
          then cons cur <$> read_record FieldStart EmptyString rest
          else if bool_decide (c = dquote) then None
               else read_record Unquoted (snoc_char cur c) rest
      | Quoted =>
          if bool_decide (c = dquote) then read_record QuoteSeen cur rest
          else read_record Quoted (snoc_char cur c) rest
      | QuoteSeen =>
          if bool_decide (c = dquote) then read_record Quoted (snoc_char cur c) rest
          else if bool_decide (c = comma)
               then cons cur <$> read_record FieldStart EmptyString rest
               else None
      end
  end.

Definition parse_record (input : string) : option (list string) :=
  read_record FieldStart EmptyString input.

(** A value the format has to escape: it holds a double quote. *)
Fixpoint has_dquote (s : string) : bool :=
  match s with
  | EmptyString => false
  | String c rest => bool_decide (c = dquote) || has_dquote rest
  end.

(** ** The TensorFlow runtime

    What the handler asks of [tf]: the operations on tensor values.  Decoding
    throws on bytes that are not an image ([None]); the other operations of
    the preprocessing chain compute a new value. *)
Class TensorOps : Type := {
  tensor : Type;
  decodeImage : list Byte.byte → Z → option tensor;
  resizeNearestNeighbor : tensor → Z * Z → tensor;
  expandDims : tensor → tensor;
  toFloat : tensor → tensor;
  scalar : Z → tensor;
  div : tensor → tensor → tensor;
  dataSync : tensor → list num;
}.

(** A loaded [tf.LayersModel]: [predict] computes the output value, or
    throws ([None]). *)
Record LayersModel `{TensorOps} : Type := mkModel {
  predict : tensor → option tensor;
}.

(** A [tf.Tensor] object: the engine's id of the tensor, and its value. *)
Record Handle `{TensorOps} : Type := mkHandle {
  tid : nat;
  value : tensor;
}.

(** The loader started when the module is evaluated has settled or not. *)
Inductive LoaderState : Type := Loading | Settled.

(** The state of the process: the [model] variable, the loader, the two
    collections, and the tensors the engine holds ([tf.memory().numTensors]
    is the size of [live]). *)
Record Server `{TensorOps} : Type := mkServer {
  model : option LayersModel;
  loader : LoaderState;
  detections : list Detection;
  users : list User;
  fresh : nat;
  live : gset nat;
}.

Definition set_model `{TensorOps} (m : option LayersModel) (l : LoaderState)
    (σ : Server) : Server :=
  {| model := m; loader := l; detections := detections σ; users := users σ;
     fresh := fresh σ; live := live σ |}.

Definition set_detections `{TensorOps} (ds : list Detection) (σ : Server) : Server :=
  {| model := model σ; loader := loader σ; detections := ds; users := users σ;
     fresh := fresh σ; live := live σ |}.

Definition set_engine `{TensorOps} (n : nat) (l : gset nat) (σ : Server) : Server :=
  {| model := model σ; loader := loader σ; detections := detections σ;
     users := users σ; fresh := n; live := l |}.

(** What an [async] handler can do besides returning: throw, which rejects
    its promise. *)
Inductive Exn : Type :=
  | NoFile          (* [req.file] is [undefined]: [req.file.path] throws *)
  | DecodeThrew     (* [tf.node.decodeImage] threw *)
  | PredictThrew.   (* [model.predict] threw *)

Inductive Outcome (A : Type) : Type :=
  | Done (a : A)
  | Threw (e : Exn).
Arguments Done {A} a.
Arguments Threw {A} e.

Definition Rt `{TensorOps} (A : Type) : Type := Server → Outcome A * Server.

Definition ret `{TensorOps} {A} (a : A) : Rt A := λ σ, (Done a, σ).

Definition throw `{TensorOps} {A} (e : Exn) : Rt A := λ σ, (Threw e, σ).

Definition bind `{TensorOps} {A B} (c : Rt A) (k : A → Rt B) : Rt B :=
  λ σ, match c σ with
       | (Done a, σ') => k a σ'
       | (Threw e, σ') => (Threw e, σ')
       end.

Notation "'let*' x ':=' c 'in' k" := (bind c (λ x, k))
  (at level 10, x pattern, c at level 100, k at level 200, only parsing).
Notation "c ';;' k" := (bind c (λ _, k))
  (at level 100, k at level 200, right associativity, only parsing).

(** The engine registers every tensor an operation returns. *)
Definition register `{TensorOps} (v : tensor) : Rt Handle :=
  λ σ, (Done {| tid := fresh σ; value := v |},
        set_engine (S (fresh σ)) ({[ fresh σ ]} ∪ live σ) σ).

(** [tf.dispose([...])] *)
Definition tf_dispose `{TensorOps} (hs : list Handle) : Rt unit :=
  λ σ, (Done (), set_engine (fresh σ) (live σ ∖ list_to_set (tid <$> hs)) σ).

Definition tf_decodeImage `{TensorOps} (buffer : list Byte.byte) (channels : Z)
  : Rt Handle :=
  match decodeImage buffer channels with
  | Some v => register v
  | None => throw DecodeThrew
  end.

Definition model_predict `{TensorOps} (m : LayersModel) (x : Handle) : Rt Handle :=
  match predict m (value x) with
  | Some v => register v
  | None => throw PredictThrew
  end.

(** ** The [/detect-image] handler *)

(** The request as the handler sees it, after [requireLogin] and
    [upload.single("image")]: the session user, the bytes of the uploaded
    file ([None] when the form carried no file, so [req.file] is
    [undefined]), and the time the store reads when it stamps a document. *)
Record Request : Type := mkRequest {
  session_id : ObjectId;
  session_username : string;
  file : option (list Byte.byte);
  clock : Z;
}.

Inductive Body : Type :=
  | ErrorBody (error : string)
  | ResultBody (label : string) (confidence : option num).

(** [res.status(s).json(body)] *)
Inductive Response : Type := Json (status : Z) (body : Body).

(** [fs.readFileSync(req.file.path)] *)
Definition readFileSync `{TensorOps} (req : Request) : Rt (list Byte.byte) :=
  match file req with
  | Some bytes => ret bytes
  | None => throw NoFile
  end.

(** Modelled from the spec: the [Detection] model ([./models/detection]) is
    not among the sources.  [Detection.create] is the append of the
    Detection Log: it assigns [createdAt], stores the document after the
    documents already stored, and resolves. *)
Definition Detection_create `{TensorOps} (u : ObjectId) (name lbl : string)
    (conf : option num) (compliant : bool) (src : string) (now : Z) : Rt unit :=
  λ σ, (Done (),
        set_detections
          (detections σ ++
             [ {| user := u; username := name; label := lbl; confidence := conf;
                  isCompliant := compliant; source := src; createdAt := now |} ])
          σ).

Definition not_ready : Response := Json 500 (ErrorBody "Model not ready").

(** The body of the handler once the guard [if (!model)] has let it pass. *)
Definition classify `{TensorOps} (m : LayersModel) (req : Request) : Rt Response :=
  let* buffer := readFileSync req in
  let* decoded := tf_decodeImage buffer 3 in
  let* resized := register (resizeNearestNeighbor (value decoded) (224, 224)) in
  let* expanded := register (expandDims (value resized)) in
  let* floated := register (toFloat (value expanded)) in
  let* s255 := register (scalar 255) in
  let* tensor := register (div (value floated) (value s255)) in
  let* preds := model_predict m tensor in
  let data := dataSync (value preds) in
  let idx := maxIdx data in
  let lbl := label_of idx in
  let conf := at_index data idx in
  Detection_create (session_id req) (session_username req) lbl conf
    (bool_decide (lbl = "uniform")) "upload" (clock req) ;;
  tf_dispose [tensor; preds] ;;
  ret (Json 200 (ResultBody lbl conf)).

Definition detect_image `{TensorOps} (req : Request) : Rt Response :=
  λ σ, match model σ with
       | None => ret not_ready σ
       | Some m => classify m req σ
       end.

(** ** The process as a transition system *)

(** What happens to the process: the promise of [tf.loadLayersModel]
    settles, or a request arrives. *)
Inductive Event `{TensorOps} : Type :=
  | LoadResolved (m : LayersModel)
  | LoadRejected
  | PostDetectImage (req : Request)
  | GetDetect (uid : ObjectId)
  | GetExport.

Inductive Reply : Type :=
  | Logged (line : string)
  | Handled (o : Outcome Response)
  | Rendered (history : list Detection)
  | Sent (csv : string).

(** [GET /detect]: the ten newest documents of the session user. *)
Definition detect_history `{SortStage} (uid : ObjectId) (coll : list Detection)
  : list Detection :=
  take 10 (sort_createdAt_desc (events_of uid coll)).

(** [GET /teacher/students/export] *)
Definition teacher_export `{SortStage} `{DateFormat} (us : list User)
    (coll : list Detection) : string :=
  export_csv (find_students us) (uniformMap (Detection_aggregate coll)).

(** One step of the process.  The loader settles once: a settle event has
    no step when the loader is [Settled]. *)
Definition step `{TensorOps} `{SortStage} `{DateFormat} (σ : Server) (ev : Event)
  : option (Server * Reply) :=
  match ev with
  | LoadResolved m =>
      match loader σ with
      | Loading => Some (set_model (Some m) Settled σ, Logged "ML Model Loaded")
      | Settled => None
      end
  | LoadRejected =>
      match loader σ with
      | Loading => Some (set_model (model σ) Settled σ, Logged "ML Load Error")
      | Settled => None
      end
  | PostDetectImage req =>
      let '(o, σ') := detect_image req σ in Some (σ', Handled o)
  | GetDetect uid => Some (σ, Rendered (detect_history uid (detections σ)))
  | GetExport => Some (σ, Sent (teacher_export (users σ) (detections σ)))
  end.

Fixpoint run `{TensorOps} `{SortStage} `{DateFormat} (σ : Server) (evs : list Event)
  : option (Server * list Reply) :=
  match evs with
  | [] => Some (σ, [])
  | ev :: rest =>
      match step σ ev with
      | None => None
      | Some (σ', r) =>
          match run σ' rest with
          | None => None
          | Some (σ'', rs) => Some (σ'', r :: rs)
          end
      end
  end.

(** The process when the module has been evaluated: [model] is [null], the
    loader is pending, the engine holds no tensor; the collections are what
    the database holds. *)
Definition boot `{TensorOps} (ds : list Detection) (us : list User) : Server :=
  {| model := None; loader := Loading; detections := ds; users := us;
     fresh := 0%nat; live := ∅ |}.

(** The invariant of section 3 of the specification on a stored document. *)
Definition consistent (d : Detection) : Prop :=
  isCompliant d = bool_decide (label d = "uniform").

(** ** The paths of the handler, for stating what a request leaves behind *)

(** The value the model receives: the decoded image after the four
    operations of the preprocessing chain. *)
Definition preprocess `{TensorOps} (v : tensor) : tensor :=
  div (toFloat (expandDims (resizeNearestNeighbor v (224, 224)))) (scalar 255).

(** The document the handler hands to [Detection.create] for the output
    [data]. *)
Definition stored_event (req : Request) (data : list num) : Detection :=
  {| user := session_id req; username := session_username req;
     label := label_of (maxIdx data);
     confidence := at_index data (maxIdx data);
     isCompliant := bool_decide (label_of (maxIdx data) = "uniform");
     source := "upload"; createdAt := clock req |}.

(** The ids the engine hands out for [n] tensors from the id [base] on. *)
Definition ids_from (base n : nat) : gset nat := list_to_set (seq base n).

(** The process after [predict] threw: six tensors were registered, none
    disposed of. *)
Definition after_predict_threw `{TensorOps} (σ : Server) : Server :=
  set_engine (6 + fresh σ)
    ({[ 5 + fresh σ ]} ∪ ({[ 4 + fresh σ ]} ∪ ({[ 3 + fresh σ ]} ∪
     ({[ 2 + fresh σ ]} ∪ ({[ 1 + fresh σ ]} ∪ ({[ fresh σ ]} ∪ live σ))))))%nat σ.

(** The process after the handler answered: seven tensors were registered,
    the document is stored, the last two tensors are disposed of. *)
Definition after_answer `{TensorOps} (req : Request) (data : list num)
    (σ : Server) : Server :=
  set_engine (7 + fresh σ)
    (({[ 6 + fresh σ ]} ∪ ({[ 5 + fresh σ ]} ∪ ({[ 4 + fresh σ ]} ∪
      ({[ 3 + fresh σ ]} ∪ ({[ 2 + fresh σ ]} ∪ ({[ 1 + fresh σ ]} ∪
      ({[ fresh σ ]} ∪ live σ)))))))
     ∖ list_to_set [5 + fresh σ; 6 + fresh σ])%nat
    (set_detections (detections σ ++ [stored_event req data]) σ).

(** Every registered tensor has an id below the next id of the engine. *)
Definition engine_ok `{TensorOps} (σ : Server) : Prop :=
  ∀ i, i ∈ live σ → (i < fresh σ)%nat.

(** ** Stand-ins for the collaborators, for concrete runs *)

(** A decoder that takes a buffer for an image when it opens with the JPEG
    start-of-image marker; a tensor value is the list of its numbers. *)
Definition jpeg_only : TensorOps :=
  {| tensor := list num;
     decodeImage := λ buffer _,
       match buffer with
       | Byte.xff :: Byte.xd8 :: Byte.xff :: _ => Some []
       | _ => None
       end;
     resizeNearestNeighbor := λ v _, v;
     expandDims := λ v, v;
     toFloat := λ v, v;
     scalar := λ _, [];
     div := λ v _, v;
     dataSync := λ v, v |}.

(** A model whose output is the same vector for every input. *)
Definition constant_model (out : list num) : @LayersModel jpeg_only :=
  @mkModel jpeg_only (λ _, Some out).

(** A model whose [predict] throws on every input. *)
Definition broken_model : @LayersModel jpeg_only :=
  @mkModel jpeg_only (λ _, None).

Definition jpeg_bytes : list Byte.byte := [Byte.xff; Byte.xd8; Byte.xff; Byte.xe0].

(** A date format that prints the number of milliseconds. *)
Definition millis : DateFormat := λ t, pretty t.

Definition likely_uniform : list num :=
  [Fin (Q2Qc (9 # 10)); Fin (Q2Qc (1 # 10))].

(** A process whose loader resolved with a model of constant output. *)
Definition ready_process (out : list num) : @Server jpeg_only :=
  @set_model jpeg_only (Some (constant_model out)) Settled (@boot jpeg_only [] []).

(** A process whose loader was rejected. *)
Definition failed_process : @Server jpeg_only :=
  @set_model jpeg_only None Settled (@boot jpeg_only [] []).

Definition upload (bytes : list Byte.byte) : Request :=
  {| session_id := 1; session_username := "s1"; file := Some bytes; clock := 1000 |}.

(** The round trip of the specification: S1 compliant at T1, then
    non-compliant at T2 > T1, stored in either order. *)
Definition round_trip_T1 : Detection :=
  {| user := 1; username := "s1"; label := "uniform";
     confidence := Some (Fin (Q2Qc (91 # 100))); isCompliant := true;
     source := "upload"; createdAt := 1000 |}.

Definition round_trip_T2 : Detection :=
  {| user := 1; username := "s1"; label := "not-uniform";
     confidence := Some (Fin (Q2Qc (77 # 100))); isCompliant := false;
     source := "upload"; createdAt := 2000 |}.

(** Two documents of one subject with the same [createdAt]: the first one
    stored says compliant, the one appended after it says non-compliant. *)
Definition tie_first : Detection :=
  {| user := 1; username := "s1"; label := "uniform";
     confidence := Some (Fin (Q2Qc (9 # 10))); isCompliant := true;
     source := "upload"; createdAt := 5000 |}.

Definition tie_second : Detection :=
  {| user := 1; username := "s1"; label := "not-uniform";
     confidence := Some (Fin (Q2Qc (8 # 10))); isCompliant := false;
     source := "upload"; createdAt := 5000 |}.

Definition tie_log : list Detection := [tie_first; tie_second].

(** The scenario of the specification: S1 has no status, S2 has the
    non-compliant status of the round trip. *)
Definition subject_S1 : User :=
  {| s_id := 7; s_username := "s1"; s_email := "s1@school.example";
     s_department := Some "CS"; s_year := Some "2"; s_division := Some "A";
     s_role := "student" |}.

Definition subject_S2 : User :=
  {| s_id := 1; s_username := "s2"; s_email := "s2@school.example";
     s_department := Some "CS"; s_year := Some "2"; s_division := None;
     s_role := "student" |}.

(** A student who signed up with a user name of three characters: [a], a
    double quote, [b]. *)
Definition quote_in_name : User :=
  {| s_id := 9;
     s_username := "a" +:+ dq +:+ "b";
     s_email := "ab@school.example";
     s_department := Some "CS"; s_year := Some "1"; s_division := Some "B";
     s_role := "student" |}.

(** A student who signed up with a user name of five characters: [x], a
    double quote, a comma, a double quote, [y]. *)
Definition comma_quote_in_name : User :=
  {| s_id := 10;
     s_username := "x" +:+ dq +:+ "," +:+ dq +:+ "y";
     s_email := "xy@school.example";
     s_department := Some "CS"; s_year := Some "1"; s_division := Some "B";
     s_role := "student" |}.

(** ** Sessions, credentials and the routes *)

(** What a session holds: [req.session.user] (a copy of the user document,
    absent until a login or a signup) and [req.session.isTeacher] (absent
    counts as false: the flag is only ever tested for truth). *)
Record Session : Type := mkSession {
  sess_user : option User;
  sess_isTeacher : bool;
}.

(** The session of a request that carries no known session cookie. *)
Definition no_session : Session := {| sess_user := None; sess_isTeacher := false |}.

(** The two environment variables of the teacher credentials. *)
Record Env : Type := mkEnv {
  env_TEACHER_ID : option string;
  env_TEACHER_PASSWORD : option string;
}.

(** [process.env.X || d]: an unset variable and an empty one both give [d]. *)
Definition or_default (v : option string) (d : string) : string :=
  match v with
  | Some s => if bool_decide (s = EmptyString) then d else s
  | None => d
  end.

Definition TEACHER_ID (e : Env) : string :=
  or_default (env_TEACHER_ID e) "teacher123".

Definition TEACHER_PASSWORD (e : Env) : string :=
  or_default (env_TEACHER_PASSWORD e) "teacher@999".

(** The application: the process, the [password] field of the documents of
    the [users] collection (by [_id]; the record [User] holds the fields the
    reports read), and the session store (by session id). *)
Record App `{TensorOps} : Type := mkApp {
  process : Server;
  passwords : gmap N string;
  sessions : gmap N Session;
}.

Definition session_of `{TensorOps} (a : App) (sid : N) : Session :=
  default no_session (sessions a !! sid).

Definition set_session `{TensorOps} (sid : N) (s : Session) (a : App) : App :=
  {| process := process a; passwords := passwords a;
     sessions := <[sid := s]> (sessions a) |}.

(** [req.session.destroy()] *)
Definition destroy_session `{TensorOps} (sid : N) (a : App) : App :=
  {| process := process a; passwords := passwords a;
     sessions := delete sid (sessions a) |}.

Definition set_process `{TensorOps} (σ : Server) (a : App) : App :=
  {| process := σ; passwords := passwords a; sessions := sessions a |}.

Definition set_users `{TensorOps} (us : list User) (σ : Server) : Server :=
  {| model := model σ; loader := loader σ; detections := detections σ;
     users := us; fresh := fresh σ; live := live σ |}.

(** [User.create({ ..., role: "student" })].  The [User] model is not among
    the sources, so the verdict of the store is part of the request: [None]
    when it rejects the document (a duplicate key, a failed validation, no
    connection), [Some id] when it stores it under the generated [_id].  An
    [_id] that is already taken is a duplicate key. *)
Definition User_create `{TensorOps} (username email password : string)
    (department year division : option string) (store : option ObjectId) (a : App)
  : option (User * App) :=
  match store with
  | None => None
  | Some id =>
      if bool_decide (id ∈ s_id <$> users (process a)) then None
      else
        let user := {| s_id := id; s_username := username; s_email := email;
                       s_department := department; s_year := year;
                       s_division := division; s_role := "student" |} in
        Some (user,
              {| process := set_users (users (process a) ++ [user]) (process a);
                 passwords := <[id := password]> (passwords a);
                 sessions := sessions a |})
  end.

(** A value of a form or of the query string as the body and query parsers
    hand it over ([express.urlencoded({ extended: true })], [express.json()]
    and the query parser): a string, or an array or object
    ([password[$ne]=x] gives the object [{ $ne: x }]), or whatever else a
    JSON body holds.  In a query
    condition Mongoose reads an object as operators on the field:
    [selects] says which stored values of the field they select, [None]
    being the field a document does not have; a value Mongoose cannot cast
    ([selects] absent) makes the query throw. *)
Inductive FormValue : Type :=
  | Text (s : string)
  | Structured (selects : option (option string → bool)).

Coercion Text : string >-> FormValue.

(** The operator [{ $ne: x }]. *)
Definition op_ne (x : string) : FormValue :=
  Structured (Some (λ field, negb (bool_decide (field = Some x)))).

(** Whether the condition [{ field: q }] selects a document whose field is
    [field]; [None] when the query throws. *)
Definition selects_field (q : FormValue) (field : option string) : option bool :=
  match q with
  | Text s => Some (bool_decide (field = Some s))
  | Structured (Some sel) => Some (sel field)
  | Structured None => None
  end.

(** [User.findOne({ username, password })]: the first document of the
    collection that both conditions select ([Some None] when there is
    none), or [None] when the query throws. *)
Definition User_findOne `{TensorOps} (username password : FormValue) (a : App)
  : option (option User) :=
  match username, password with
  | Structured None, _ | _, Structured None => None
  | _, _ =>
      Some (head (filter
                    (λ u, selects_field username (Some (s_username u)) = Some true ∧
                          selects_field password (passwords a !! s_id u) = Some true)
                    (users (process a))))
  end.

(** A value of the query string in a condition: [undefined] and the empty
    string are falsy, arrays and objects are truthy. *)
Definition truthy (v : option FormValue) : bool :=
  match v with
  | Some (Text s) => negb (bool_decide (s = EmptyString))
  | Some (Structured _) => true
  | None => false
  end.

(** [if (department) filter.department = department]: a truthy value
    becomes a condition on the field, a falsy one asks nothing.  [None]
    when the condition makes the query throw. *)
Definition field_ok (q : option FormValue) (field : option string) : option bool :=
  match q with
  | Some v => if truthy q then selects_field v field else Some true
  | None => Some true
  end.

(** The filter of the dashboard: [{ role: "student" }] and the three
    optional fields. *)
Definition student_filter (department year division : option FormValue) (u : User) : bool :=
  bool_decide (s_role u = "student")
  && bool_decide (field_ok department (s_department u) = Some true)
  && bool_decide (field_ok year (s_year u) = Some true)
  && bool_decide (field_ok division (s_division u) = Some true).

(** [.sort({ createdAt: -1 })] on user documents: a rearrangement of the
    documents found (by a field no route reads). *)
Class UserSort : Type := {
  sort_users : list User → list User;
  sort_users_perm : ∀ us, sort_users us ≡ₚ us;
}.

(** [User.find(filter).sort({ createdAt: -1 })]; [None] when one of the
    three conditions makes the query throw. *)
Definition dashboard_students `{UserSort} (department year division : option FormValue)
    (us : list User) : option (list User) :=
  match department, year, division with
  | Some (Structured None), _, _
  | _, Some (Structured None), _
  | _, _, Some (Structured None) => None
  | _, _, _ =>
      Some (sort_users (filter (λ u, student_filter department year division u = true) us))
  end.

(** The requests the application routes.  A field is [None] when the
    request does not carry it.  The fields of the sign-up form are the
    strings the schema of [User] makes of them, [store] being the verdict of
    [User.create] (a value the schema rejects is one of its refusals); the
    teacher login compares with [===], which no array or object passes, so
    its two fields are the strings sent, if any. *)
Inductive Http : Type :=
  | GET_root
  | GET_signup
  | POST_signup (username email password : string)
      (department year division : option string) (store : option ObjectId)
  | GET_login
  | POST_login (username password : FormValue) (db_up : bool)
  | POST_logout
  | GET_detect
  | GET_teacher_login
  | POST_teacher_login (teacherId password : option string)
  | POST_teacher_logout
  | GET_teacher_students (department year division : option FormValue)
  | GET_teacher_students_export
  | POST_detect_image (image : option (list Byte.byte)) (now : Z)
  | Unrouted.

(** What a view receives besides [res.locals]. *)
Inductive ViewData : Type :=
  | Plain
  | WithError (error : string)
  | WithHistory (history : list Detection)
  | WithStudents (students : list User) (uniformMap : gmap N Group)
      (department year division : option FormValue).

(** [locals] is [res.locals]: [currentUser] and [isTeacher], read from the
    session when the request comes in.  [Unanswered] is a handler whose
    promise rejects before it answers: nothing is sent. *)
Inductive HttpResponse : Type :=
  | Redirect (location : string)
  | Render (status : Z) (view : string) (locals : Session) (data : ViewData)
  | SendText (status : Z) (text : string)
  | SendCsv (csv : string)
  | FromHandler (o : Outcome Response)
  | Unanswered.

(** <<
    function requireLogin(req, res, next) {
      if (!req.session.user) return res.redirect("/login");
      next();
    }
>> *)
Definition requireLogin `{TensorOps} (s : Session) (a : App)
    (next : User → HttpResponse * App) : HttpResponse * App :=
  match sess_user s with
  | None => (Redirect "/login", a)
  | Some u => next u
  end.

(** <<
    function requireTeacher(req, res, next) {
      if (!req.session.isTeacher) return res.redirect("/teacher-login");
      next();
    }
>> *)
Definition requireTeacher `{TensorOps} (s : Session) (a : App)
    (next : HttpResponse * App) : HttpResponse * App :=
  if sess_isTeacher s then next else (Redirect "/teacher-login", a).

(** The routes of [app.js], for the request [h] of the session [sid]. *)
Definition route `{TensorOps} `{SortStage} `{UserSort} `{DateFormat}
    (env : Env) (sid : N) (h : Http) (a : App) : HttpResponse * App :=
  let s := session_of a sid in
  match h with
  | GET_root => (Render 200 "home" s Plain, a)
  | GET_signup =>
      match sess_user s with
      | Some _ => (Redirect "/detect", a)
      | None => (Render 200 "users/signup" s Plain, a)
      end
  | POST_signup username email password department year division store =>
      match User_create username email password department year division store a with
      | Some (user, a') =>
          (Redirect "/detect",
           set_session sid {| sess_user := Some user;
                              sess_isTeacher := sess_isTeacher s |} a')
      | None =>
          (Render 500 "users/signup" s (WithError "Username or email already exists"), a)
      end
  | GET_login =>
      match sess_user s with
      | Some _ => (Redirect "/detect", a)
      | None => (Render 200 "users/login" s Plain, a)
      end
  | POST_login username password db_up =>
      if db_up then
        match User_findOne username password a with
        | Some None =>
            (Render 400 "users/login" s (WithError "Invalid username or password"), a)
        | Some (Some user) =>
            (Redirect "/detect",
             set_session sid {| sess_user := Some user;
                                sess_isTeacher := sess_isTeacher s |} a)
        | None => (SendText 500 "Server error", a)
        end
      else (SendText 500 "Server error", a)
  | POST_logout => (Redirect "/", destroy_session sid a)
  | GET_detect =>
      requireLogin s a (λ u,
        (Render 200 "detect" s
           (WithHistory (detect_history (s_id u) (detections (process a)))), a))
  | GET_teacher_login => (Render 200 "users/teacher-login" s Plain, a)
  | POST_teacher_login teacherId password =>
      if bool_decide (teacherId = Some (TEACHER_ID env))
         && bool_decide (password = Some (TEACHER_PASSWORD env))
      then (Redirect "/teacher/students",
            set_session sid {| sess_user := sess_user s; sess_isTeacher := true |} a)
      else (Render 200 "users/teacher-login" s
              (WithError "Invalid teacher credentials"), a)
  | POST_teacher_logout =>
      (Redirect "/",
       set_session sid {| sess_user := sess_user s; sess_isTeacher := false |} a)
  | GET_teacher_students department year division =>
      requireTeacher s a
        (match dashboard_students department year division (users (process a)) with
         | Some students =>
             Render 200 "users/teacher-students" s
               (WithStudents students
                  (uniformMap (Detection_aggregate (detections (process a))))
                  department year division)
         | None => Unanswered
         end, a)
  | GET_teacher_students_export =>
      requireTeacher s a
        (SendCsv (teacher_export (users (process a)) (detections (process a))), a)
  | POST_detect_image image now =>
      requireLogin s a (λ u,
        let '(o, σ) :=
          detect_image {| session_id := s_id u; session_username := s_username u;
                          file := image; clock := now |} (process a) in
        (FromHandler o, set_process σ a))
  | Unrouted => (SendText 404 "404 Not Found", a)
  end.

(** What reaches the application: the promise of the loader settles (with a
    model, or rejected), or a session sends a request. *)
Inductive Incoming `{TensorOps} : Type :=
  | LoaderSettles (m : option LayersModel)
  | Web (sid : N) (h : Http).

Definition app_step `{TensorOps} `{SortStage} `{UserSort} `{DateFormat}
    (env : Env) (a : App) (ev : Incoming) : option (App * option HttpResponse) :=
  match ev with
  | LoaderSettles m =>
      match step (process a)
              (match m with Some m => LoadResolved m | None => LoadRejected end) with
      | Some (σ, _) => Some (set_process σ a, None)
      | None => None
      end
  | Web sid h => let '(r, a') := route env sid h a in Some (a', Some r)
  end.

Fixpoint app_run `{TensorOps} `{SortStage} `{UserSort} `{DateFormat}
    (env : Env) (a : App) (evs : list Incoming)
  : option (App * list (option HttpResponse)) :=
  match evs with
  | [] => Some (a, [])
  | ev :: rest =>
      match app_step env a ev with
      | None => None
      | Some (a', r) =>
          match app_run env a' rest with
          | None => None
          | Some (a'', rs) => Some (a'', r :: rs)
          end
      end
  end.

(** Every session user is a document of the [users] collection. *)
Definition sessions_known `{TensorOps} (a : App) : Prop :=
  ∀ sid u, sess_user (session_of a sid) = Some u → u ∈ users (process a).

(** The teacher pages and the pages behind [requireLogin]. *)
Definition teacher_page (h : Http) : Prop :=
  h = GET_teacher_students_export ∨ ∃ d y v, h = GET_teacher_students d y v.

Definition user_page (h : Http) : Prop :=
  h = GET_detect ∨ ∃ image now, h = POST_detect_image image now.

(** Some user document carries this user name and this password. *)
Definition can_login `{TensorOps} (name pw : string) (a : App) : Prop :=
  ∃ u, u ∈ users (process a) ∧ s_username u = name ∧
       passwords a !! s_id u = Some pw.

(** A user sort that leaves the documents in the order of the collection. *)
Definition unsorted_users : UserSort :=
  {| sort_users := λ us, us; sort_users_perm := λ us, reflexivity us |}.

(** An application with one user document and no session. *)
Definition one_user_app : @App jpeg_only :=
  {| process := @set_users jpeg_only [subject_S2] (ready_process likely_uniform);
     passwords := {[ 1%N := "secret" ]};
     sessions := ∅ |}.

Definition unset_env : Env := {| env_TEACHER_ID := None; env_TEACHER_PASSWORD := None |}.

(** Requests of two sessions against [one_user_app]. *)
Definition post_login_s2 : @Incoming jpeg_only :=
  @Web jpeg_only 5 (POST_login "s2" "secret" true).

Definition post_teacher_login_default : @Incoming jpeg_only :=
  @Web jpeg_only 5 (POST_teacher_login (Some "teacher123") (Some "teacher@999")).

Definition post_signup_new : Http :=
  POST_signup "new" "new@school.example" "pw" None (Some "1") None (Some 2%N).

(** A process with two documents and two students whose loader was
    rejected. *)
Definition failed_with_data : @Server jpeg_only :=
  @set_model jpeg_only None Settled
    (@boot jpeg_only [round_trip_T1; round_trip_T2] [subject_S1; subject_S2]).

(** * Facts *)

(** ** The order of numbers *)

Lemma num_ltb_irrefl (x : num) : num_ltb x x = false.
Proof.
  destruct x as [| |q|]; simpl; try reflexivity.
  apply bool_decide_eq_false. intros H. by apply Qclt_not_eq in H.
Qed.

Lemma num_le_refl (x : num) : num_le x x.
Proof. apply num_ltb_irrefl. Qed.

Lemma num_le_trans (x y z : num) :
  y ≠ NaN → num_le x y → num_le y z → num_le x z.
Proof.
  unfold num_le.
  destruct x as [| |a|], y as [| |b|], z as [| |c|]; simpl;
    try congruence; intros _.
  rewrite !bool_decide_eq_false. intros Hba Hcb Hca.
  apply Qcnot_lt_le in Hba, Hcb.
  apply (Qclt_not_le _ _ Hca). by apply Qcle_trans with b.
Qed.

Lemma num_ltb_false_le (x y : num) :
  x ≠ NaN → y ≠ NaN → num_ltb x y = true → num_le x y.
Proof.
  unfold num_le.
  destruct x as [| |a|], y as [| |b|]; simpl; try congruence; intros _ _.
  rewrite bool_decide_eq_true, bool_decide_eq_false.
  intros Hab Hba. by apply (Qclt_not_eq _ _ (Qclt_trans _ _ _ Hab Hba)).
Qed.

Lemma num_le_antisym (x y : num) :
  x ≠ NaN → y ≠ NaN → num_le x y → num_le y x → x = y.
Proof.
  unfold num_le.
  destruct x as [| |a|], y as [| |b|]; simpl; try congruence; intros _ _.
  rewrite !bool_decide_eq_false. intros Hba Hab.
  f_equal. apply Qcle_antisym; by apply Qcnot_lt_le.
Qed.

Lemma num_le_neq_ltb (x y : num) :
  x ≠ NaN → y ≠ NaN → num_le x y → x ≠ y → num_ltb x y = true.
Proof.
  intros Hx Hy Hle Hne. destruct (num_ltb x y) eqn:E; [done|].
  destruct Hne. by apply num_le_antisym.
Qed.

Lemma strict_eqb_eq (x y : num) : y ≠ NaN → strict_eqb x y = true ↔ x = y.
Proof.
  intros Hy. destruct x, y; simpl; try done;
    rewrite ?bool_decide_eq_true; done.
Qed.

(** ** [Math.max] and [indexOf] *)

Lemma max_from_spec (l : list num) : ∀ h,
  h ≠ NaN → no_nan l →
  max_from h l ≠ NaN ∧ num_le h (max_from h l) ∧
  Forall (λ x, num_le x (max_from h l)) l ∧
  (max_from h l = h ∨ max_from h l ∈ l).
Proof.
  induction l as [|x l IH]; intros h Hh Hl; simpl.
  - split_and!; [done|apply num_le_refl|constructor|by left].
  - apply Forall_cons in Hl as [Hx Hl].
    destruct x as [| |q|] eqn:Ex; try done; simpl; rewrite <- Ex in *;
      (destruct (num_ltb h x) eqn:Elt;
       [ destruct (IH x Hx Hl) as (Hn & Hle & Hall & Hin);
         split_and!; [done| |constructor; done|]
       | destruct (IH h Hh Hl) as (Hn & Hle & Hall & Hin);
         split_and!; [done|done|constructor; [|done]|] ]).
    all: try (destruct Hin as [->|Hin]; [right; left|right; by right]).
    all: try (destruct Hin as [->|Hin]; [by left|right; by right]).
    all: try (apply num_le_trans with x; [done| |done];
              by apply num_ltb_false_le).
    all: by apply num_le_trans with h.
Qed.

Lemma Math_max_spec (data : list num) :
  data ≠ [] → no_nan data →
  Math_max data ≠ NaN ∧ Math_max data ∈ data ∧
  Forall (λ x, num_le x (Math_max data)) data.
Proof.
  intros Hne Hnn. unfold Math_max.
  destruct (max_from_spec data NegInf) as (Hn & _ & Hall & Hin); [done..|].
  split_and!; [done| |done].
  destruct Hin as [Heq|Hin]; [|done].
  destruct data as [|x l]; [done|].
  rewrite Heq in Hall. apply Forall_cons in Hall as [Hx _].
  apply Forall_cons in Hnn as [Hxn _].
  assert (x = NegInf) as ->; [|rewrite Heq; by left].
  apply num_le_antisym; try done. by destruct x.
Qed.

Lemma indexOf_from_found (l : list num) (x : num) : ∀ k,
  x ≠ NaN → x ∈ l →
  ∃ i : nat, indexOf_from k l x = k + Z.of_nat i ∧ l !! i = Some x ∧
             ∀ (j : nat) y, (j < i)%nat → l !! j = Some y → y ≠ x.
Proof.
  induction l as [|y l IH]; intros k Hx Hin; [by apply elem_of_nil in Hin|].
  simpl. destruct (strict_eqb y x) eqn:E.
  - apply strict_eqb_eq in E as ->; [|done].
    exists 0%nat. split_and!; [lia|done|lia].
  - assert (y ≠ x) as Hne.
    { intros ->. apply not_true_iff_false in E. apply E. by apply strict_eqb_eq. }
    apply elem_of_cons in Hin as [->|Hin]; [done|].
    destruct (IH (k + 1) Hx Hin) as (i & Hi & Hl & Hlow).
    exists (S i). split_and!; [lia|done|].
    intros [|j] z Hj Hz; simpl in Hz; [congruence|].
    apply (Hlow j); [lia|done].
Qed.

Lemma indexOf_from_absent (l : list num) (x : num) : ∀ k,
  (∀ y, y ∈ l → strict_eqb y x = false) → indexOf_from k l x = -1.
Proof.
  induction l as [|y l IH]; intros k H; [done|].
  simpl. rewrite H by left. apply IH. intros z Hz. apply H. by right.
Qed.

Lemma max_from_nan (l : list num) : ∀ h, NaN ∈ l → max_from h l = NaN.
Proof.
  induction l as [|x l IH]; intros h Hin; [by apply elem_of_nil in Hin|].
  apply elem_of_cons in Hin as [<-|Hin]; [done|].
  simpl. destruct (is_nan x); [done|]. by apply IH.
Qed.

(** ** The decision rule *)

(** Not a vector of probabilities: one [NaN] among the outputs and no
    index is found, whatever the other entries are. *)
Lemma maxIdx_nan (data : list num) : NaN ∈ data → maxIdx data = -1.
Proof.
  intros Hin. unfold maxIdx, Math_max, indexOf. rewrite max_from_nan by done.
  apply indexOf_from_absent. intros y _. by destruct y.
Qed.

Lemma maxIdx_spec (data : list num) :
  data ≠ [] → no_nan data →
  ∃ (i : nat) (m : num),
    maxIdx data = Z.of_nat i ∧ data !! i = Some m ∧ m = Math_max data ∧
    (∀ (j : nat) x, data !! j = Some x → num_le x m) ∧
    (∀ (j : nat) x, (j < i)%nat → data !! j = Some x → num_ltb x m = true).
Proof.
  intros Hne Hnn.
  destruct (Math_max_spec data Hne Hnn) as (Hn & Hin & Hall).
  destruct (indexOf_from_found data (Math_max data) 0 Hn Hin) as (i & Hi & Hl & Hlow).
  exists i, (Math_max data). split_and!; [exact Hi|done|done| |].
  - intros j x Hj. rewrite Forall_forall in Hall. apply Hall.
    by apply list_elem_of_lookup_2 in Hj.
  - intros j x Hji Hj.
    assert (x ∈ data) as Hx by by apply list_elem_of_lookup_2 in Hj.
    apply num_le_neq_ltb; [|done| |by apply (Hlow j)].
    + unfold no_nan in Hnn. rewrite Forall_forall in Hnn. by apply Hnn.
    + rewrite Forall_forall in Hall. by apply Hall.
Qed.

(** C2.  On every non-empty vector of probabilities (no entry is [NaN]) the
    decision rule picks an index [i] whose entry [m] is the largest of the
    vector, every entry before [i] is strictly smaller than [m] (among equal
    maxima the lowest index is chosen), the label is the one of index [i]
    ("uniform" for index 0, "not-uniform" for the others), and the confidence
    is the entry [m] itself. *)
Theorem decide_argmax_lowest_index (data : list num) :
  data ≠ [] → no_nan data →
  ∃ (i : nat) (m : num),
    maxIdx data = Z.of_nat i ∧
    data !! i = Some m ∧
    (∀ (j : nat) x, data !! j = Some x → num_le x m) ∧
    (∀ (j : nat) x, (j < i)%nat → data !! j = Some x → num_ltb x m = true) ∧
    decision_rule data = (if i is O then "uniform" else "not-uniform", Some m).
Proof.
  intros Hne Hnn.
  destruct (maxIdx_spec data Hne Hnn) as (i & m & Hi & Hl & _ & Hmax & Hlow).
  exists i, m. split_and!; try done.
  unfold decision_rule, decide_label, decide_confidence, label_of, at_index.
  rewrite Hi. f_equal.
  - destruct i; [done|]. rewrite bool_decide_eq_false_2; [done|lia].
  - rewrite bool_decide_eq_false_2 by lia. by rewrite Nat2Z.id.
Qed.

(** The tie of the specification: on [[0.5, 0.5]] index 0 wins, so the label
    is "uniform" and the confidence is 0.5. *)
Lemma decide_argmax_lowest_index_tie :
  ∃ (i : nat) (m : num),
    maxIdx [Fin half; Fin half] = Z.of_nat i ∧
    [Fin half; Fin half] !! i = Some m ∧
    (∀ (j : nat) x, [Fin half; Fin half] !! j = Some x → num_le x m) ∧
    (∀ (j : nat) x, (j < i)%nat → [Fin half; Fin half] !! j = Some x →
                    num_ltb x m = true) ∧
    decision_rule [Fin half; Fin half]
    = (if i is O then "uniform" else "not-uniform", Some m).
Proof.
  apply (decide_argmax_lowest_index [Fin half; Fin half]).
  - discriminate.
  - repeat constructor; discriminate.
Defined.

Example decide_tie : decision_rule [Fin half; Fin half] = ("uniform", Some (Fin half)).
Proof. reflexivity. Qed.

Example decide_second :
  decision_rule [Fin (Q2Qc (1 # 4)); Fin (Q2Qc (3 # 4))]
  = ("not-uniform", Some (Fin (Q2Qc (3 # 4)))).
Proof. reflexivity. Qed.

(** A [NaN] among the outputs is no probability: [Math.max] answers
    [NaN], which [indexOf] never finds. *)
Example decide_nan : decision_rule [Fin half; NaN] = ("not-uniform", None).
Proof. reflexivity. Qed.

(** On the empty vector [Math.max()] is [-Infinity], [indexOf] answers [-1],
    the label is "not-uniform" and [data[-1]] is [undefined]. *)
Lemma decide_empty :
  Math_max [] = NegInf ∧ maxIdx [] = -1 ∧ decision_rule [] = ("not-uniform", None).
Proof. by split_and!. Qed.

(** ** The aggregation pipeline *)

Lemma has_group_group_of (acc : list Group) (k : ObjectId) :
  has_group acc k = if group_of k acc is Some _ then true else false.
Proof.
  unfold has_group, group_of. induction acc as [|g acc IH]; [done|].
  simpl. rewrite filter_cons. destruct (decide (_id g = k)) as [Hk|Hk].
  - by rewrite bool_decide_eq_true_2.
  - by rewrite bool_decide_eq_false_2.
Qed.

Lemma group_of_None (acc : list Group) (k : ObjectId) :
  group_of k acc = None ↔ k ∉ _id <$> acc.
Proof.
  unfold group_of. induction acc as [|g acc IH]; simpl.
  - split; [intros _; apply not_elem_of_nil|done].
  - rewrite filter_cons, not_elem_of_cons.
    destruct (decide (_id g = k)) as [Hk|Hk]; simpl.
    + split; [done|]. intros [Hne _]. by destruct Hne.
    + rewrite IH. split; [by split|by intros [_ ?]].
Qed.

Lemma group_of_Some_key (acc : list Group) (k : ObjectId) (g : Group) :
  group_of k acc = Some g → _id g = k.
Proof.
  unfold group_of. intros Hg.
  assert (g ∈ filter (λ g, _id g = k) acc) as Hin.
  { destruct (filter _ acc) as [|x l]; [done|]. simpl in Hg. injection Hg as ->. left. }
  by apply list_elem_of_filter in Hin as [? _].
Qed.

Lemma group_of_snoc (acc : list Group) (g : Group) (k : ObjectId) :
  group_of k (acc ++ [g])
  = match group_of k acc with
    | Some x => Some x
    | None => if decide (_id g = k) then Some g else None
    end.
Proof.
  unfold group_of. rewrite filter_app, head_app.
  destruct (head (filter _ acc)); [done|].
  rewrite filter_cons. by destruct (decide (_id g = k)).
Qed.

Lemma group_step_group_of (acc : list Group) (d : Detection) (k : ObjectId) :
  group_of k (group_step acc d)
  = match group_of k acc with
    | Some g => Some g
    | None => if decide (user d = k) then Some (first_of d) else None
    end.
Proof.
  unfold group_step. rewrite has_group_group_of.
  destruct (group_of (user d) acc) as [g0|] eqn:E0.
  - destruct (group_of k acc) eqn:Ek; [done|].
    destruct (decide (user d = k)) as [<-|]; [congruence|done].
  - by rewrite group_of_snoc.
Qed.

Lemma group_step_NoDup (acc : list Group) (d : Detection) :
  NoDup (_id <$> acc) → NoDup (_id <$> group_step acc d).
Proof.
  intros Hnd. unfold group_step. rewrite has_group_group_of.
  destruct (group_of (user d) acc) eqn:E; [done|].
  apply group_of_None in E.
  rewrite fmap_app. apply NoDup_app. split_and!; [done| |by apply NoDup_singleton].
  intros x Hx Hx'. simpl in Hx'. apply list_elem_of_singleton in Hx' as ->. done.
Qed.

Lemma foldl_group_step (docs : list Detection) : ∀ (acc : list Group) (k : ObjectId),
  group_of k (foldl group_step acc docs)
  = match group_of k acc with
    | Some g => Some g
    | None => first_of <$> head (events_of k docs)
    end.
Proof.
  induction docs as [|d docs IH]; intros acc k; simpl.
  - by destruct (group_of k acc).
  - rewrite IH, group_step_group_of. destruct (group_of k acc); [done|].
    unfold events_of. rewrite filter_cons.
    by destruct (decide (user d = k)).
Qed.

Lemma foldl_group_step_NoDup (docs : list Detection) : ∀ acc : list Group,
  NoDup (_id <$> acc) → NoDup (_id <$> foldl group_step acc docs).
Proof.
  induction docs as [|d docs IH]; intros acc Hnd; [done|].
  simpl. by apply IH, group_step_NoDup.
Qed.

Lemma foldl_insert_lookup (l : list Group) : ∀ (m : gmap N Group) (k : ObjectId),
  NoDup (_id <$> l) →
  foldl (λ m d, <[_id d := d]> m) m l !! k
  = match group_of k l with Some g => Some g | None => m !! k end.
Proof.
  induction l as [|g l IH]; intros m k Hnd; [done|].
  simpl in *. apply NoDup_cons in Hnd as [Hg Hnd]. rewrite IH by done.
  unfold group_of at 2. rewrite filter_cons.
  destruct (decide (_id g = k)) as [<-|Hk]; simpl.
  - apply group_of_None in Hg. rewrite Hg. apply lookup_insert_eq.
  - fold (group_of k l). destruct (group_of k l); [done|].
    by apply lookup_insert_ne.
Qed.

(** The status of a subject is read off the first of its documents in the
    order the [$sort] stage produced. *)
Lemma latestPerSubject_head (sorted : list Detection) (k : ObjectId) :
  latestPerSubject sorted !! k = first_of <$> head (events_of k sorted).
Proof.
  unfold latestPerSubject, uniformMap, group_first.
  rewrite foldl_insert_lookup.
  - rewrite foldl_group_step. simpl.
    by destruct (head (events_of k sorted)).
  - apply foldl_group_step_NoDup. constructor.
Qed.

Lemma head_events_newest (sorted : list Detection) (k : ObjectId) (w : Detection) :
  StronglySorted newer_first sorted →
  head (events_of k sorted) = Some w →
  w ∈ sorted ∧ user w = k ∧
  ∀ e, e ∈ sorted → user e = k → createdAt e ≤ createdAt w.
Proof.
  intros Hs Hw. unfold events_of in Hw.
  destruct (head_filter_Some _ _ _ Hw) as (l1 & l2 & -> & Hl1).
  assert (user w = k) as Hk.
  { assert (w ∈ filter (λ d, user d = k) (l1 ++ w :: l2)) as Hin.
    { destruct (filter _ (l1 ++ w :: l2)) as [|x l]; [done|].
      simpl in Hw. injection Hw as ->. left. }
    by apply list_elem_of_filter in Hin as [? _]. }
  split_and!; [set_solver|done|].
  intros e He Hek. apply elem_of_app in He as [He|He].
  - rewrite Forall_forall in Hl1. by destruct (Hl1 e He).
  - apply elem_of_cons in He as [->|He]; [lia|].
    apply StronglySorted_app_1_r, StronglySorted_cons in Hs as [Hall _].
    rewrite Forall_forall in Hall. by apply Hall.
Qed.

Lemma events_of_nil_iff (k : ObjectId) (docs : list Detection) :
  events_of k docs = [] ↔ ∀ e, e ∈ docs → user e ≠ k.
Proof.
  unfold events_of. split.
  - intros H e He Hk.
    assert (e ∈ filter (λ d, user d = k) docs) as Hin
      by by apply list_elem_of_filter.
    rewrite H in Hin. by apply elem_of_nil in Hin.
  - intros H. destruct (filter _ docs) as [|x l] eqn:E; [done|].
    assert (x ∈ filter (λ d, user d = k) docs) as Hin by (rewrite E; left).
    apply list_elem_of_filter in Hin as [Hk Hx]. by destruct (H x Hx).
Qed.

(** The three facts about the status map of a collection, for every
    arrangement the [$sort] stage may produce. *)
Lemma latest_of_sort_stage (coll sorted : list Detection) (k : ObjectId) :
  sort_stage coll sorted →
  (events_of k coll = [] → latestPerSubject sorted !! k = None) ∧
  (events_of k coll ≠ [] →
     ∃ w, w ∈ coll ∧ user w = k ∧
          (∀ e, e ∈ coll → user e = k → createdAt e ≤ createdAt w) ∧
          head (events_of k sorted) = Some w ∧
          latestPerSubject sorted !! k = Some (first_of w)) ∧
  (∀ e, e ∈ coll → user e = k →
     (∀ e', e' ∈ coll → user e' = k → e' ≠ e → createdAt e' < createdAt e) →
     latestPerSubject sorted !! k = Some (first_of e)).
Proof.
  intros [Hperm Hsorted].
  assert (∀ e, e ∈ sorted ↔ e ∈ coll) as Hmem by (intros e; by rewrite Hperm).
  assert (events_of k coll ≠ [] →
     ∃ w, w ∈ coll ∧ user w = k ∧
          (∀ e, e ∈ coll → user e = k → createdAt e ≤ createdAt w) ∧
          head (events_of k sorted) = Some w ∧
          latestPerSubject sorted !! k = Some (first_of w)) as Hsome.
  { intros Hne. rewrite latestPerSubject_head.
    destruct (head (events_of k sorted)) as [w|] eqn:Hw.
    - destruct (head_events_newest sorted k w Hsorted Hw) as (Hin & Hk & Hmax).
      exists w. split_and!; [by apply Hmem|done| |done|done].
      intros e He. apply Hmax. by apply Hmem.
    - destruct Hne. apply events_of_nil_iff. intros e He.
      apply head_None in Hw. rewrite events_of_nil_iff in Hw.
      apply Hw. by apply Hmem. }
  split_and!; [|done|].
  - intros Hnil. rewrite latestPerSubject_head.
    rewrite events_of_nil_iff in Hnil.
    assert (events_of k sorted = []) as ->; [|done].
    apply events_of_nil_iff. intros e He. apply Hnil. by apply Hmem.
  - intros e He Hk Hstrict.
    destruct Hsome as (w & Hw & Hwk & Hmax & _ & ->).
    { intros Hnil. rewrite events_of_nil_iff in Hnil. by destruct (Hnil e He). }
    destruct (decide (w = e)) as [->|Hne]; [done|].
    specialize (Hstrict w Hw Hwk Hne). specialize (Hmax e He Hk). lia.
Qed.

Lemma aggregate_latest `{SortStage} (coll : list Detection) :
  uniformMap (Detection_aggregate coll) = latestPerSubject (sort_createdAt_desc coll).
Proof. reflexivity. Qed.

(** C1.  In the map built from [Detection.aggregate], a subject without any
    document is absent; a subject with documents is mapped to the record of
    its [_id], the [isCompliant] and the [createdAt] of one of its documents
    whose [createdAt] is the largest among the subject's documents; when one
    document is strictly newer than all the others of the subject it is that
    document; and in whatever order the collection stores the documents, the
    reported [lastAt] is that largest [createdAt]. *)
Theorem latestPerSubject_absent_or_newest `{SortStage}
    (coll : list Detection) (k : ObjectId) :
  (events_of k coll = [] → uniformMap (Detection_aggregate coll) !! k = None) ∧
  (events_of k coll ≠ [] →
     ∃ w, w ∈ coll ∧ user w = k ∧
          (∀ e, e ∈ coll → user e = k → createdAt e ≤ createdAt w) ∧
          uniformMap (Detection_aggregate coll) !! k
          = Some {| _id := k; lastIsCompliant := isCompliant w;
                    lastAt := createdAt w |}) ∧
  (∀ e, e ∈ coll → user e = k →
     (∀ e', e' ∈ coll → user e' = k → e' ≠ e → createdAt e' < createdAt e) →
     uniformMap (Detection_aggregate coll) !! k
     = Some {| _id := k; lastIsCompliant := isCompliant e;
               lastAt := createdAt e |}) ∧
  (∀ coll', coll' ≡ₚ coll →
     lastAt <$> uniformMap (Detection_aggregate coll') !! k
     = lastAt <$> uniformMap (Detection_aggregate coll) !! k) ∧
  (∀ coll' w, coll' ≡ₚ coll → w ∈ coll → user w = k →
     (∀ e, e ∈ coll → user e = k → createdAt e ≤ createdAt w) →
     lastAt <$> uniformMap (Detection_aggregate coll') !! k = Some (createdAt w)).
Proof.
  rewrite aggregate_latest.
  destruct (latest_of_sort_stage coll _ k (sort_createdAt_desc_ok coll))
    as (Hnil & Hsome & Hstrict).
  split_and!; [exact Hnil| | | |].
  - intros Hne. destruct (Hsome Hne) as (w & ? & Hk & ? & _ & Hl).
    exists w. split_and!; [done..|]. rewrite Hl. unfold first_of. by rewrite Hk.
  - intros e He Hk Hnew. rewrite (Hstrict e He Hk Hnew).
    unfold first_of. by rewrite Hk.
  - intros coll' Hperm. rewrite aggregate_latest.
    destruct (latest_of_sort_stage coll' _ k (sort_createdAt_desc_ok coll'))
      as (Hnil' & Hsome' & _).
    assert (∀ e, e ∈ coll' ↔ e ∈ coll) as Hmem by (intros e; by rewrite Hperm).
    destruct (decide (events_of k coll = [])) as [He|He].
    + assert (events_of k coll' = []) as He'.
      { rewrite events_of_nil_iff in He. apply events_of_nil_iff.
        intros e Hin. apply He. by apply Hmem. }
      by rewrite (Hnil He), (Hnil' He').
    + destruct (Hsome He) as (w & Hw & Hwk & Hmax & _ & ->).
      destruct Hsome' as (w' & Hw' & Hwk' & Hmax' & _ & ->).
      { intros Hnil''. rewrite events_of_nil_iff in Hnil''.
        apply (Hnil'' w); [by apply Hmem|done]. }
      simpl. f_equal.
      apply Hmem in Hw'. apply Hmem in Hw.
      specialize (Hmax w' Hw' Hwk'). specialize (Hmax' w Hw Hwk). lia.
  - intros coll' w Hperm Hw Hwk Hmax. rewrite aggregate_latest.
    destruct (latest_of_sort_stage coll' _ k (sort_createdAt_desc_ok coll'))
      as (_ & Hsome' & _).
    assert (∀ e, e ∈ coll' ↔ e ∈ coll) as Hmem by (intros e; by rewrite Hperm).
    destruct Hsome' as (w' & Hw' & Hwk' & Hmax' & _ & ->).
    { intros Hnil''. rewrite events_of_nil_iff in Hnil''.
      apply (Hnil'' w); [by apply Hmem|done]. }
    simpl. f_equal.
    apply Hmem in Hw'. specialize (Hmax w' Hw' Hwk').
    specialize (Hmax' w (proj2 (Hmem w) Hw) Hwk). lia.
Qed.

Example round_trip :
  uniformMap (@Detection_aggregate stable_stage [round_trip_T1; round_trip_T2]) !! 1%N
  = Some {| _id := 1; lastIsCompliant := false; lastAt := 2000 |} ∧
  uniformMap (@Detection_aggregate stable_stage [round_trip_T2; round_trip_T1]) !! 1%N
  = Some {| _id := 1; lastIsCompliant := false; lastAt := 2000 |} ∧
  uniformMap (@Detection_aggregate stable_stage [round_trip_T2; round_trip_T1]) !! 2%N
  = None.
Proof. by vm_compute. Qed.

(** ** Equal timestamps *)

Lemma tie_log_sorted : sort_stage tie_log tie_log.
Proof.
  split; [done|]. unfold tie_log, newer_first.
  repeat (constructor; simpl; try lia).
Qed.

(** C5, refuted as stated.  The collection holds the two documents in the
    order they were appended.  That order is itself in descending
    [createdAt], so it is an arrangement [$sort] may produce, and it is the
    one a stable sort produces; the status then comes from the document
    stored first, while the most recently appended one is the other. *)
Lemma tie_winner_is_not_most_recent :
  sort_stage tie_log tie_log ∧
  latestPerSubject tie_log !! 1%N = Some (first_of tie_first) ∧
  uniformMap (@Detection_aggregate stable_stage tie_log) !! 1%N
  = Some (first_of tie_first) ∧
  last tie_log = Some tie_second ∧
  lastIsCompliant (first_of tie_first) = true ∧
  lastIsCompliant (first_of tie_second) = false.
Proof.
  split; [exact tie_log_sorted|]. by vm_compute.
Qed.

(** C5, amended.  When two documents of a subject share the newest
    [createdAt], the status of the subject is taken from the first of the
    subject's documents in the arrangement the [$sort] stage produced; that
    document carries the shared timestamp, so [lastAt] is that timestamp,
    and [lastIsCompliant] is the flag of that document. *)
Theorem tie_winner_is_first_in_sort_order
    (coll sorted : list Detection) (k : ObjectId) (e1 e2 : Detection) :
  sort_stage coll sorted →
  e1 ∈ coll → e2 ∈ coll → user e1 = k → user e2 = k →
  createdAt e1 = createdAt e2 →
  (∀ e, e ∈ coll → user e = k → createdAt e ≤ createdAt e1) →
  ∃ w, head (events_of k sorted) = Some w ∧
       createdAt w = createdAt e1 ∧
       latestPerSubject sorted !! k
       = Some {| _id := k; lastIsCompliant := isCompliant w;
                 lastAt := createdAt e2 |}.
Proof.
  intros Hstage H1 H2 Hk1 Hk2 Heq Hmax.
  destruct (latest_of_sort_stage coll sorted k Hstage) as (_ & Hsome & _).
  destruct Hsome as (w & Hw & Hwk & Hwmax & Hhead & Hlook).
  { intros Hnil. rewrite events_of_nil_iff in Hnil. by destruct (Hnil e1 H1). }
  assert (createdAt w = createdAt e1) as Hts.
  { specialize (Hmax w Hw Hwk). specialize (Hwmax e1 H1 Hk1). lia. }
  exists w. split_and!; [done|done|].
  rewrite Hlook. unfold first_of. by rewrite Hwk, Hts, Heq.
Qed.

Lemma tie_winner_is_first_in_sort_order_tie_log :
  ∃ w, head (events_of 1%N tie_log) = Some w ∧
       createdAt w = createdAt tie_first ∧
       latestPerSubject tie_log !! 1%N
       = Some {| _id := 1%N; lastIsCompliant := isCompliant w;
                 lastAt := createdAt tie_second |}.
Proof.
  apply (tie_winner_is_first_in_sort_order tie_log tie_log 1%N tie_first tie_second).
  - exact tie_log_sorted.
  - left.
  - right; left.
  - reflexivity.
  - reflexivity.
  - reflexivity.
  - intros e He _. unfold tie_log in He.
    apply elem_of_cons in He as [->|He]; [simpl; lia|].
    apply list_elem_of_singleton in He as ->. simpl. lia.
Defined.

(** ** The report *)

Lemma string_app_cons (x : ascii) (a b : string) :
  String x a +:+ b = String x (a +:+ b).
Proof. reflexivity. Qed.

Lemma string_app_assoc (a b c : string) : (a +:+ b) +:+ c = a +:+ b +:+ c.
Proof.
  induction a as [|x a IH]; [done|]. rewrite !string_app_cons. by f_equal.
Qed.

Lemma string_app_empty (a : string) : a +:+ EmptyString = a.
Proof.
  induction a as [|x a IH]; [done|]. rewrite string_app_cons. by f_equal.
Qed.

Lemma export_csv_from `{DateFormat} (students : list User) (m : gmap N Group) :
  ∀ csv, foldl (λ csv s, csv +:+ csv_line (report_row m s)) csv students
         = csv +:+ lines_text (report_rows students m).
Proof.
  induction students as [|s students IH]; intros csv.
  - simpl. by rewrite string_app_empty.
  - change (report_rows (s :: students) m)
      with (report_row m s :: report_rows students m).
    cbn [foldl foldr lines_text]. rewrite IH. apply string_app_assoc.
Qed.

Lemma string_app_nil_l (a : string) : EmptyString +:+ a = a.
Proof. reflexivity. Qed.

(** Brings a text built with [+:+] to the form character, character, ...,
    rest. *)
Ltac string_norm :=
  repeat first [ rewrite string_app_assoc | rewrite string_app_cons
               | rewrite string_app_nil_l ].

(** The text of a line of seven values, character by character. *)
Lemma csv_line_text (f1 f2 f3 f4 f5 f6 f7 : string) :
  csv_line [f1; f2; f3; f4; f5; f6; f7]
  = String "034" (f1 +:+ String "034" (String "," (String "034"
      (f2 +:+ String "034" (String "," (String "034"
      (f3 +:+ String "034" (String "," (String "034"
      (f4 +:+ String "034" (String "," (String "034"
      (f5 +:+ String "034" (String "," (String "034"
      (f6 +:+ String "034" (String "," (String "034"
      (f7 +:+ String "034" (String "010" EmptyString)))))))))))))))))))).
Proof.
  unfold csv_line, csv_record, quoted, dq, nl. cbn [fmap list_fmap join_comma].
  string_norm. reflexivity.
Qed.

Lemma lines_text_concat (rows : list (list string)) :
  lines_text rows = String.concat EmptyString (csv_line <$> rows).
Proof.
  induction rows as [|r rows IH]; [done|].
  cbn [lines_text foldr fmap list_fmap String.concat].
  fold (lines_text rows). rewrite IH.
  destruct rows as [|r' rows]; [apply string_app_empty|done].
Qed.

(** C8.  The export is the header line followed by one line per subject, in
    the order of the input and with nothing in between: the line of a
    subject holds its user name, e-mail, department, year and division
    (the word "undefined" for a field the document lacks), the status and
    the date, each between double quotes, separated by commas and ended by a
    line feed.  The status is "No Data" with an empty date when the map has
    no entry for the subject, "Uniform OK" when the entry says compliant and
    "Not in Uniform" when it says non-compliant.  The same is stated on the
    rows: one row per subject, the row at position [i] is the row of the
    subject at position [i] of the input. *)
Theorem report_rows_in_input_order `{DateFormat}
    (students : list User) (m : gmap N Group) :
  let Q := String "034" EmptyString in
  let LF := String "010" EmptyString in
  let opt := λ v : option string, match v with Some x => x | None => "undefined" end in
  export_csv students m
  = ("Username,Email,Department,Year,Division,Uniform Status,Last Checked" +:+ LF) +:+
    String.concat EmptyString
      ((λ s, Q +:+ s_username s +:+ Q +:+ "," +:+
             Q +:+ s_email s +:+ Q +:+ "," +:+
             Q +:+ opt (s_department s) +:+ Q +:+ "," +:+
             Q +:+ opt (s_year s) +:+ Q +:+ "," +:+
             Q +:+ opt (s_division s) +:+ Q +:+ "," +:+
             Q +:+ match m !! s_id s with
                   | None => "No Data"
                   | Some g => if lastIsCompliant g then "Uniform OK"
                               else "Not in Uniform"
                   end +:+ Q +:+ "," +:+
             Q +:+ match m !! s_id s with
                   | None => EmptyString
                   | Some g => Date_toString (lastAt g)
                   end +:+ Q +:+ LF) <$> students) ∧
  export_csv students m = csv_header +:+ lines_text (report_rows students m) ∧
  length (report_rows students m) = length students ∧
  ∀ (i : nat) s, students !! i = Some s →
    report_rows students m !! i
    = Some [ s_username s; s_email s; interpolate (s_department s);
             interpolate (s_year s); interpolate (s_division s);
             status (m !! s_id s); last_checked (m !! s_id s) ] ∧
    (m !! s_id s = None → status (m !! s_id s) = "No Data") ∧
    (∀ g, m !! s_id s = Some g → lastIsCompliant g = true →
          status (m !! s_id s) = "Uniform OK") ∧
    (∀ g, m !! s_id s = Some g → lastIsCompliant g = false →
          status (m !! s_id s) = "Not in Uniform").
Proof.
  intros Q LF opt. split_and!.
  - unfold export_csv. rewrite export_csv_from, lines_text_concat.
    unfold csv_header, nl, LF. f_equal. f_equal.
    unfold report_rows. rewrite <- list_fmap_compose.
    apply list_fmap_ext. intros _ s _. simpl.
    unfold report_row, row_fields. rewrite csv_line_text.
    unfold Q, LF, opt, interpolate, status, last_checked.
    string_norm. reflexivity.
  - apply export_csv_from.
  - unfold report_rows. by rewrite length_fmap.
  - intros i s Hi. split_and!.
    + unfold report_rows. rewrite list_lookup_fmap, Hi. done.
    + by intros ->.
    + intros g -> Hg. simpl. by rewrite Hg.
    + intros g -> Hg. simpl. by rewrite Hg.
Qed.

Example report_scenario :
  (λ row, row !! 5%nat) <$>
    @report_rows millis [subject_S1; subject_S2]
      (uniformMap (@Detection_aggregate stable_stage [round_trip_T1; round_trip_T2]))
  = [Some "No Data"; Some "Not in Uniform"].
Proof. by vm_compute. Qed.

(** ** Values with a double quote in the export *)

Lemma read_quoted_plain (f : string) : ∀ cur rest,
  has_dquote f = false →
  read_record Quoted cur (f +:+ rest) = read_record Quoted (cur +:+ f) rest.
Proof.
  induction f as [|c f IH]; intros cur rest Hf.
  - by rewrite string_app_empty.
  - simpl in Hf. apply orb_false_iff in Hf as [Hc Hf].
    rewrite string_app_cons. cbn [read_record].
    rewrite Hc, IH by done. unfold snoc_char.
    by rewrite string_app_assoc.
Qed.

Lemma quoted_app (f rest : string) :
  quoted f +:+ rest = String dquote (f +:+ String dquote rest).
Proof. unfold quoted, dq. by rewrite !string_app_assoc. Qed.

Lemma read_quoted_field (f rest : string) :
  has_dquote f = false →
  read_record FieldStart EmptyString (quoted f +:+ rest)
  = read_record QuoteSeen f rest.
Proof.
  intros Hf. rewrite quoted_app.
  change (read_record FieldStart EmptyString
            (String dquote (f +:+ String dquote rest)))
    with (read_record Quoted EmptyString (f +:+ String dquote rest)).
  by rewrite read_quoted_plain.
Qed.

(** As long as no value holds a double quote, the record the export writes
    reads back as the values it was written from: commas and line feeds
    inside a value are kept by the surrounding quotes. *)
Lemma parse_csv_record_plain (fields : list string) :
  fields ≠ [] → Forall (λ f, has_dquote f = false) fields →
  parse_record (csv_record fields) = Some fields.
Proof.
  unfold parse_record, csv_record.
  induction fields as [|f fields IH]; intros Hne Hall; [done|].
  apply Forall_cons in Hall as [Hf Hall].
  destruct fields as [|f' fields].
  - change (join_comma (quoted <$> [f])) with (quoted f).
    rewrite <- (string_app_empty (quoted f)).
    by rewrite read_quoted_field.
  - change (join_comma (quoted <$> f :: f' :: fields))
      with (quoted f +:+ "," +:+ join_comma (quoted <$> f' :: fields)).
    rewrite read_quoted_field by done.
    change (read_record QuoteSeen f ("," +:+ join_comma (quoted <$> f' :: fields)))
      with (cons f <$> read_record FieldStart EmptyString
                         (join_comma (quoted <$> f' :: fields))).
    by rewrite IH.
Qed.

(** C6, on the code.  The double quote of a user name is written as it is:
    the record of the first student is not a record of the format, and the
    record of the second one reads back as eight values, not the seven that
    were written. *)
Lemma export_leaves_quote_unescaped :
  csv_record (@row_fields millis quote_in_name None)
  = dq +:+ "a" +:+ dq +:+ "b" +:+ dq +:+ "," +:+
    dq +:+ "ab@school.example" +:+ dq +:+ "," +:+
    dq +:+ "CS" +:+ dq +:+ "," +:+ dq +:+ "1" +:+ dq +:+ "," +:+
    dq +:+ "B" +:+ dq +:+ "," +:+ dq +:+ "No Data" +:+ dq +:+ "," +:+
    dq +:+ dq ∧
  parse_record (csv_record (@row_fields millis quote_in_name None)) = None ∧
  parse_record (csv_record (@row_fields millis comma_quote_in_name None))
  = Some ["x"; "y"; "xy@school.example"; "CS"; "1"; "B"; "No Data"; EmptyString].
Proof. by vm_compute. Qed.

(** ** The handler, path by path *)

Lemma classify_paths `{TensorOps} (m : LayersModel) (req : Request) (σ : Server) :
  classify m req σ
  = match file req with
    | None => (Threw NoFile, σ)
    | Some buffer =>
        match decodeImage buffer 3 with
        | None => (Threw DecodeThrew, σ)
        | Some v =>
            match predict m (preprocess v) with
            | None => (Threw PredictThrew, after_predict_threw σ)
            | Some out =>
                (Done (Json 200 (ResultBody (label_of (maxIdx (dataSync out)))
                                   (at_index (dataSync out) (maxIdx (dataSync out))))),
                 after_answer req (dataSync out) σ)
            end
        end
    end.
Proof.
  unfold classify, bind, readFileSync, tf_decodeImage, model_predict, preprocess.
  destruct (file req) as [buffer|]; [|done]. cbn.
  destruct (decodeImage buffer 3) as [v|]; [|done]. cbn.
  destruct (predict m _) as [out|]; [|done]. cbn.
  reflexivity.
Qed.

Lemma detect_image_model `{TensorOps} (req : Request) (σ : Server) :
  model (detect_image req σ).2 = model σ ∧
  loader (detect_image req σ).2 = loader σ ∧
  users (detect_image req σ).2 = users σ.
Proof.
  unfold detect_image. destruct (model σ) as [m|] eqn:Hm; [|done].
  rewrite classify_paths.
  destruct (file req) as [buffer|]; [|done].
  destruct (decodeImage buffer 3) as [v|]; [|done].
  by destruct (predict m _).
Qed.

(** What a request adds to the collection: nothing, or the one document of
    its decision. *)
Lemma detect_image_detections `{TensorOps} (req : Request) (σ : Server) :
  detections (detect_image req σ).2 = detections σ ∨
  ∃ data, detections (detect_image req σ).2
          = detections σ ++ [stored_event req data].
Proof.
  unfold detect_image. destruct (model σ) as [m|] eqn:Hm; [|by left].
  rewrite classify_paths.
  destruct (file req) as [buffer|]; [|by left].
  destruct (decodeImage buffer 3) as [v|]; [|by left].
  destruct (predict m _) as [out|]; [|by left].
  right. by exists (dataSync out).
Qed.

Lemma stored_event_consistent (req : Request) (data : list num) :
  consistent (stored_event req data).
Proof. reflexivity. Qed.

(** ** Tensors that stay registered *)

Lemma size_ids_from_union (base n : nat) (l : gset nat) :
  (∀ i, i ∈ l → (i < base)%nat) →
  size (ids_from base n ∪ l) = (n + size l)%nat.
Proof.
  intros Hok. rewrite size_union.
  - unfold ids_from. rewrite size_list_to_set, length_seq; [done|apply NoDup_seq].
  - intros i Hi Hl. apply Hok in Hl. unfold ids_from in Hi.
    rewrite elem_of_list_to_set, elem_of_seq in Hi. lia.
Qed.

Lemma after_answer_live `{TensorOps} (req : Request) (data : list num) (σ : Server) :
  engine_ok σ →
  live (after_answer req data σ) = ids_from (fresh σ) 5 ∪ live σ ∧
  size (live (after_answer req data σ)) = (5 + size (live σ))%nat ∧
  engine_ok (after_answer req data σ).
Proof.
  intros Hok. unfold engine_ok in *.
  assert (live (after_answer req data σ) = ids_from (fresh σ) 5 ∪ live σ) as Hlive.
  { apply set_eq. intros i. cbn. unfold ids_from. cbn.
    specialize (Hok i). set_unfold. intuition lia. }
  split_and!; [done| |].
  - rewrite Hlive. by apply size_ids_from_union.
  - intros i. rewrite Hlive. intros Hi. cbn.
    apply elem_of_union in Hi as [Hi|Hi].
    + unfold ids_from in Hi. rewrite elem_of_list_to_set, elem_of_seq in Hi. lia.
    + specialize (Hok i Hi). lia.
Qed.

Lemma after_predict_threw_live `{TensorOps} (σ : Server) :
  engine_ok σ →
  live (after_predict_threw σ) = ids_from (fresh σ) 6 ∪ live σ ∧
  size (live (after_predict_threw σ)) = (6 + size (live σ))%nat.
Proof.
  intros Hok. unfold engine_ok in *.
  assert (live (after_predict_threw σ) = ids_from (fresh σ) 6 ∪ live σ) as Hlive.
  { apply set_eq. intros i. cbn. unfold ids_from. cbn.
    set_unfold. intuition lia. }
  split; [done|].
  rewrite Hlive. by apply size_ids_from_union.
Qed.

(** ** Bytes that are not an image *)

(** C3, refuted as stated.  The decoder rejects the empty buffer and a
    buffer that does not open like an image, and the handler, with the model
    loaded, does not answer either request: the exception of the decoder
    leaves the handler, whose promise is rejected.  Nothing was stored. *)
Lemma undecodable_upload_gets_no_response :
  @decodeImage jpeg_only [] 3 = None ∧
  @detect_image jpeg_only (upload []) (ready_process likely_uniform)
  = (Threw DecodeThrew, ready_process likely_uniform) ∧
  @decodeImage jpeg_only [Byte.x47; Byte.x00] 3 = None ∧
  @detect_image jpeg_only (upload [Byte.x47; Byte.x00]) (ready_process likely_uniform)
  = (Threw DecodeThrew, ready_process likely_uniform) ∧
  @detections jpeg_only (ready_process likely_uniform) = [].
Proof. by split_and!. Qed.

(** C3, amended.  When the decoder throws on the uploaded bytes, the handler
    stops there with the exception of the decoder: it sends no response of
    its own, and the process is left as it was, so no document is appended
    and no tensor is registered. *)
Theorem undecodable_upload_appends_nothing `{TensorOps}
    (m : LayersModel) (req : Request) (σ : Server) (buffer : list Byte.byte) :
  model σ = Some m → file req = Some buffer → decodeImage buffer 3 = None →
  detect_image req σ = (Threw DecodeThrew, σ) ∧
  detections (detect_image req σ).2 = detections σ.
Proof.
  intros Hm Hf Hd. unfold detect_image. rewrite Hm, classify_paths, Hf, Hd. done.
Qed.

Lemma undecodable_upload_appends_nothing_empty :
  @detect_image jpeg_only (upload []) (ready_process likely_uniform)
  = (Threw DecodeThrew, ready_process likely_uniform) ∧
  @detections jpeg_only
    (@detect_image jpeg_only (upload []) (ready_process likely_uniform)).2
  = @detections jpeg_only (ready_process likely_uniform).
Proof.
  apply (@undecodable_upload_appends_nothing jpeg_only
           (constant_model likely_uniform) (upload [])
           (ready_process likely_uniform) []); reflexivity.
Defined.

(** ** An empty output vector *)

(** C10.  When the output of the model holds no number, the index computed
    by the handler is [-1], the label is "not-uniform", the confidence is
    [undefined], the handler answers with these, and the document it stores
    carries them, with [isCompliant] false. *)
Theorem empty_output_is_stored `{TensorOps}
    (m : LayersModel) (req : Request) (σ : Server)
    (buffer : list Byte.byte) (v out : tensor) :
  model σ = Some m → file req = Some buffer →
  decodeImage buffer 3 = Some v → predict m (preprocess v) = Some out →
  dataSync out = [] →
  maxIdx (dataSync out) = -1 ∧
  (detect_image req σ).1 = Done (Json 200 (ResultBody "not-uniform" None)) ∧
  detections (detect_image req σ).2
  = detections σ ++
      [ {| user := session_id req; username := session_username req;
           label := "not-uniform"; confidence := None; isCompliant := false;
           source := "upload"; createdAt := clock req |} ].
Proof.
  intros Hm Hf Hd Hp Hout. unfold detect_image.
  rewrite Hm, classify_paths, Hf, Hd, Hp, Hout. done.
Qed.

Lemma empty_output_is_stored_constant :
  maxIdx (@dataSync jpeg_only []) = -1 ∧
  (@detect_image jpeg_only (upload jpeg_bytes) (ready_process [])).1
  = Done (Json 200 (ResultBody "not-uniform" None)) ∧
  @detections jpeg_only
    (@detect_image jpeg_only (upload jpeg_bytes) (ready_process [])).2
  = @detections jpeg_only (ready_process []) ++
      [ {| user := 1; username := "s1";
           label := "not-uniform"; confidence := None; isCompliant := false;
           source := "upload"; createdAt := 1000 |} ].
Proof.
  apply (@empty_output_is_stored jpeg_only (constant_model [])
           (upload jpeg_bytes) (ready_process []) jpeg_bytes [] []);
    reflexivity.
Defined.

(** ** Tensors under sustained load *)

Lemma upload_answered (out : list num) (σ : @Server jpeg_only) :
  @model jpeg_only σ = Some (constant_model out) →
  @detect_image jpeg_only (upload jpeg_bytes) σ
  = (Done (Json 200 (ResultBody (label_of (maxIdx out)) (at_index out (maxIdx out)))),
     @after_answer jpeg_only (upload jpeg_bytes) out σ).
Proof.
  intros Hm. unfold detect_image. rewrite Hm, classify_paths. reflexivity.
Qed.

Lemma uploads_accumulate (out : list num) (n : nat) : ∀ σ0 : @Server jpeg_only,
  @model jpeg_only σ0 = Some (constant_model out) → @engine_ok jpeg_only σ0 →
  ∃ σ rs,
    @run jpeg_only stable_stage millis σ0
      (replicate n (@PostDetectImage jpeg_only (upload jpeg_bytes)))
    = Some (σ, rs) ∧
    size (@live jpeg_only σ) = (5 * n + size (@live jpeg_only σ0))%nat.
Proof.
  induction n as [|n IH]; intros σ0 Hm Hok.
  - exists σ0, []. split; [done|]. simpl. lia.
  - destruct (@after_answer_live jpeg_only (upload jpeg_bytes) out σ0 Hok)
      as (_ & Hsize & Hok').
    destruct (IH (@after_answer jpeg_only (upload jpeg_bytes) out σ0))
      as (σ & rs & Hrun & Hlive); [done|done|].
    exists σ, (Handled (Done (Json 200 (ResultBody (label_of (maxIdx out))
                                          (at_index out (maxIdx out))))) :: rs).
    split; [|lia].
    cbn [replicate run step]. rewrite (upload_answered out σ0 Hm).
    by rewrite Hrun.
Qed.

(** C9, on the code.  With a model that answers every image, [n] uploads in
    a row are all answered, and [5 * n] tensors are still registered with
    the engine afterwards: of the seven tensors of a request, the handler
    disposes of the last two. *)
Theorem tensors_stay_registered (n : nat) :
  ∃ σ rs,
    @run jpeg_only stable_stage millis (ready_process likely_uniform)
      (replicate n (@PostDetectImage jpeg_only (upload jpeg_bytes)))
    = Some (σ, rs) ∧
    size (@live jpeg_only σ) = (5 * n)%nat.
Proof.
  destruct (uploads_accumulate likely_uniform n (ready_process likely_uniform))
    as (σ & rs & Hrun & Hsize); [done| |].
  - intros i Hi. by apply elem_of_empty in Hi.
  - exists σ, rs. split; [done|]. rewrite Hsize. cbn. rewrite size_empty. lia.
Qed.

(** One answered upload, and one upload on which [predict] throws. *)
Example tensors_after_one_upload :
  @live jpeg_only
    (@detect_image jpeg_only (upload jpeg_bytes) (ready_process likely_uniform)).2
  = list_to_set [0; 1; 2; 3; 4]%nat ∧
  (@detect_image jpeg_only (upload jpeg_bytes)
     (@set_model jpeg_only (Some broken_model) Settled (@boot jpeg_only [] []))).1
  = Threw PredictThrew ∧
  @live jpeg_only
    (@detect_image jpeg_only (upload jpeg_bytes)
       (@set_model jpeg_only (Some broken_model) Settled (@boot jpeg_only [] []))).2
  = list_to_set [0; 1; 2; 3; 4; 5]%nat.
Proof. by vm_compute. Qed.

(** ** Runs of the process *)

Section Runs.
Context `{TensorOps} `{SortStage} `{DateFormat}.

Lemma step_detections (σ σ' : Server) (ev : Event) (r : Reply) :
  step σ ev = Some (σ', r) →
  (detections σ' = detections σ ∨
   ∃ req data, detections σ' = detections σ ++ [stored_event req data]) ∧
  users σ' = users σ.
Proof.
  destruct ev as [m| |req|uid|]; simpl.
  - destruct (loader σ); [|done]. intros [= <- _]. split; [by left|done].
  - destruct (loader σ); [|done]. intros [= <- _]. split; [by left|done].
  - destruct (detect_image req σ) as [o σ1] eqn:E. intros [= <- _].
    pose proof (detect_image_detections req σ) as Hd.
    pose proof (detect_image_model req σ) as (_ & _ & Hu).
    rewrite E in Hd, Hu. simpl in Hd, Hu. split; [|done].
    destruct Hd as [Hd|[data Hd]]; [by left|right; by exists req, data].
  - intros [= <- _]. split; [by left|done].
  - intros [= <- _]. split; [by left|done].
Qed.

Lemma run_detections (evs : list Event) : ∀ (σ0 σ : Server) (rs : list Reply),
  run σ0 evs = Some (σ, rs) →
  ∃ new, detections σ = detections σ0 ++ new ∧ Forall consistent new.
Proof.
  induction evs as [|ev evs IH]; intros σ0 σ rs Hrun; simpl in Hrun.
  - injection Hrun as <- _. exists []. by rewrite app_nil_r.
  - destruct (step σ0 ev) as [[σ1 r]|] eqn:Hstep; [|done].
    destruct (run σ1 evs) as [[σ2 rs']|] eqn:Hrest; [|done].
    injection Hrun as <- _.
    destruct (IH _ _ _ Hrest) as (new & Hnew & Hall).
    destruct (step_detections _ _ _ _ Hstep) as [[Hd|(req & data & Hd)] _].
    + exists new. by rewrite Hnew, Hd.
    + exists (stored_event req data :: new). split.
      * by rewrite Hnew, Hd, <- app_assoc.
      * constructor; [apply stored_event_consistent|done].
Qed.

(** Once the loader has settled, no settle event has a step, and [model]
    keeps its value. *)
Lemma run_settled (evs : list Event) : ∀ (σ0 σ : Server) (rs : list Reply),
  loader σ0 = Settled → run σ0 evs = Some (σ, rs) →
  model σ = model σ0 ∧ loader σ = Settled ∧
  (∀ m, LoadResolved m ∉ evs) ∧ LoadRejected ∉ evs.
Proof.
  induction evs as [|ev evs IH]; intros σ0 σ rs Hl Hrun; simpl in Hrun.
  - injection Hrun as <- _. split_and!; [done|done| |]; [intros m|];
      apply not_elem_of_nil.
  - destruct (step σ0 ev) as [[σ1 r]|] eqn:Hstep; [|done].
    destruct (run σ1 evs) as [[σ2 rs']|] eqn:Hrest; [|done].
    injection Hrun as <- _.
    assert (model σ1 = model σ0 ∧ loader σ1 = Settled ∧
            (∀ m, ev ≠ LoadResolved m) ∧ ev ≠ LoadRejected)
      as (Hm1 & Hl1 & Hev & Hev').
    { destruct ev as [m| |req|uid|]; simpl in Hstep.
      - by rewrite Hl in Hstep.
      - by rewrite Hl in Hstep.
      - destruct (detect_image req σ0) as [o σ'] eqn:E.
        injection Hstep as <- _.
        pose proof (detect_image_model req σ0) as (Hm & Hlo & _).
        rewrite E in Hm, Hlo. simpl in Hm, Hlo.
        split_and!; [done|congruence|done|done].
      - injection Hstep as <- _. done.
      - injection Hstep as <- _. done. }
    destruct (IH _ _ _ Hl1 Hrest) as (Hm & Hlo & Hno & Hno').
    split_and!; [congruence|done| |].
    + intros m Hin. apply elem_of_cons in Hin as [Hin|Hin];
        [by apply (Hev m)|by apply (Hno m)].
    + intros Hin. apply elem_of_cons in Hin as [Hin|Hin]; done.
Qed.

(** While the loader is pending [model] is [null]; it holds the model [m]
    exactly from the event [LoadResolved m] on. *)
Lemma run_loading (evs : list Event) : ∀ (σ0 σ : Server) (rs : list Reply),
  loader σ0 = Loading → model σ0 = None → run σ0 evs = Some (σ, rs) →
  ((∀ m, LoadResolved m ∉ evs) → model σ = None) ∧
  (LoadRejected ∈ evs → model σ = None ∧ loader σ = Settled) ∧
  (∀ m, LoadResolved m ∈ evs → model σ = Some m).
Proof.
  induction evs as [|ev evs IH]; intros σ0 σ rs Hl Hm0 Hrun; simpl in Hrun.
  - injection Hrun as <- _. split_and!; [done| |].
    + intros Hin. by apply elem_of_nil in Hin.
    + intros m Hin. by apply elem_of_nil in Hin.
  - destruct (step σ0 ev) as [[σ1 r]|] eqn:Hstep; [|done].
    destruct (run σ1 evs) as [[σ2 rs']|] eqn:Hrest; [|done].
    injection Hrun as <- _.
    destruct ev as [m| |req|uid|]; simpl in Hstep.
    + rewrite Hl in Hstep. injection Hstep as <- _.
      destruct (run_settled evs (set_model (Some m) Settled σ0) σ2 rs' eq_refl Hrest)
        as (Hm & Hlo & Hno & Hno').
      simpl in Hm. split_and!.
      * intros Hnone. destruct (Hnone m). left.
      * intros Hin. apply elem_of_cons in Hin as [Hin|Hin]; done.
      * intros m' Hin. apply elem_of_cons in Hin as [Hin|Hin].
        -- by injection Hin as ->.
        -- by destruct (Hno m').
    + rewrite Hl in Hstep. injection Hstep as <- _.
      destruct (run_settled evs (set_model (model σ0) Settled σ0) σ2 rs' eq_refl Hrest)
        as (Hm & Hlo & Hno & Hno').
      simpl in Hm. split_and!.
      * intros _. congruence.
      * intros _. split; [congruence|done].
      * intros m' Hin. apply elem_of_cons in Hin as [Hin|Hin]; [done|].
        by destruct (Hno m').
    + destruct (detect_image req σ0) as [o σ'] eqn:E.
      injection Hstep as <- _.
      pose proof (detect_image_model req σ0) as (Hm & Hlo & _).
      rewrite E in Hm, Hlo. simpl in Hm, Hlo.
      destruct (IH σ' σ2 rs') as (Ha & Hb & Hc); [congruence|congruence|done|].
      split_and!.
      * intros Hnone. apply Ha. intros m Hin. apply (Hnone m). by right.
      * intros Hin. apply elem_of_cons in Hin as [Hin|Hin]; [done|by apply Hb].
      * intros m Hin. apply elem_of_cons in Hin as [Hin|Hin]; [done|by apply Hc].
    + injection Hstep as <- _.
      destruct (IH σ0 σ2 rs') as (Ha & Hb & Hc); [done..|].
      split_and!.
      * intros Hnone. apply Ha. intros m Hin. apply (Hnone m). by right.
      * intros Hin. apply elem_of_cons in Hin as [Hin|Hin]; [done|by apply Hb].
      * intros m Hin. apply elem_of_cons in Hin as [Hin|Hin]; [done|by apply Hc].
    + injection Hstep as <- _.
      destruct (IH σ0 σ2 rs') as (Ha & Hb & Hc); [done..|].
      split_and!.
      * intros Hnone. apply Ha. intros m Hin. apply (Hnone m). by right.
      * intros Hin. apply elem_of_cons in Hin as [Hin|Hin]; [done|by apply Hb].
      * intros m Hin. apply elem_of_cons in Hin as [Hin|Hin]; [done|by apply Hc].
Qed.

Lemma not_ready_answer (req : Request) (σ : Server) :
  model σ = None → detect_image req σ = (Done not_ready, σ).
Proof. intros Hm. unfold detect_image. by rewrite Hm. Qed.
End Runs.

(** ** The stored flag and the stored label *)

(** C7.  Whatever happens to the process, the documents that the
    classification path has appended to the collection it started with all
    have [isCompliant] true exactly when their label is "uniform". *)
Theorem appended_events_consistent `{TensorOps} `{SortStage} `{DateFormat}
    (ds : list Detection) (us : list User) (evs : list Event)
    (σ : Server) (rs : list Reply) :
  run (boot ds us) evs = Some (σ, rs) →
  ∃ new, detections σ = ds ++ new ∧
         Forall consistent new ∧
         ∀ d, d ∈ new → (isCompliant d = true ↔ label d = "uniform").
Proof.
  intros Hrun. destruct (run_detections evs _ _ _ Hrun) as (new & Hnew & Hall).
  exists new. split_and!; [done|done|].
  intros d Hd. rewrite Forall_forall in Hall. rewrite (Hall d Hd).
  apply bool_decide_eq_true.
Qed.

Lemma appended_events_consistent_one_upload :
  ∃ new,
    @detections jpeg_only
      (@after_answer jpeg_only (upload jpeg_bytes) likely_uniform
         (ready_process likely_uniform))
    = [] ++ new ∧
    Forall consistent new ∧
    ∀ d, d ∈ new → (isCompliant d = true ↔ label d = "uniform").
Proof.
  apply (@appended_events_consistent jpeg_only stable_stage millis [] []
           [ @LoadResolved jpeg_only (constant_model likely_uniform);
             @PostDetectImage jpeg_only (upload jpeg_bytes) ]
           (@after_answer jpeg_only (upload jpeg_bytes) likely_uniform
              (ready_process likely_uniform))
           [ Logged "ML Model Loaded";
             Handled (Done (Json 200 (ResultBody "uniform"
                                        (Some (Fin (Q2Qc (9 # 10))))))) ]).
  reflexivity.
Defined.

(** ** The model guard *)

(** While [model] is [null] and the loader does not resolve, a run stores
    nothing and keeps [model] at [null]. *)
Lemma run_without_model `{TensorOps} `{SortStage} `{DateFormat} (evs : list Event) :
  ∀ (σ0 σ : Server) (rs : list Reply),
    run σ0 evs = Some (σ, rs) → model σ0 = None →
    (∀ m, LoadResolved m ∉ evs) →
    model σ = None ∧ detections σ = detections σ0 ∧ users σ = users σ0.
Proof.
  induction evs as [|ev evs IH]; intros σ0 σ rs Hrun Hm Hno; simpl in Hrun.
  - by injection Hrun as <- _.
  - destruct (step σ0 ev) as [[σ1 r]|] eqn:Hstep; [|done].
    destruct (run σ1 evs) as [[σ2 rs']|] eqn:Hrest; [|done].
    injection Hrun as <- _.
    assert (model σ1 = None ∧ detections σ1 = detections σ0 ∧ users σ1 = users σ0)
      as (Hm1 & Hd1 & Hu1).
    { destruct ev as [m| |req|uid|]; simpl in Hstep.
      - destruct (Hno m). left.
      - destruct (loader σ0); [|done]. by injection Hstep as <- _.
      - rewrite (not_ready_answer req σ0 Hm) in Hstep. by injection Hstep as <- _.
      - by injection Hstep as <- _.
      - by injection Hstep as <- _. }
    destruct (IH σ1 σ2 rs' Hrest Hm1) as (? & ? & ?).
    { intros m Hin. apply (Hno m). by right. }
    split_and!; congruence.
Qed.

(** C4.  In every run of the process from its start: as long as the loader
    has not resolved (it is pending, or it was rejected) every call of the
    handler is answered with status 500 and the error "Model not ready",
    leaves the process as it was, and the collections are the ones the
    process started with; once the loader was rejected this stays so in
    every continuation of the run, in which the history page and the export
    are still served, from the collections the process started with; once
    the loader has resolved with a model every call passes the guard (it is
    never answered "Model not ready") and, on bytes the decoder accepts,
    runs [predict] of that model, whose result decides the outcome; and the
    history page and the export are served in every state, with or without
    a model. *)
Theorem model_guard `{TensorOps} `{SortStage} `{DateFormat}
    (ds : list Detection) (us : list User) (evs : list Event)
    (σ : Server) (rs : list Reply) :
  run (boot ds us) evs = Some (σ, rs) →
  ((∀ m, LoadResolved m ∉ evs) →
     (∀ req, detect_image req σ
             = (Done (Json 500 (ErrorBody "Model not ready")), σ)) ∧
     detections σ = ds ∧ users σ = us) ∧
  (LoadRejected ∈ evs →
     ∀ more σ' rs', run σ more = Some (σ', rs') →
       (∀ req, detect_image req σ'
               = (Done (Json 500 (ErrorBody "Model not ready")), σ')) ∧
       detections σ' = ds ∧ users σ' = us ∧
       ∀ uid, run σ' [GetDetect uid; GetExport]
              = Some (σ',
                      [ Rendered (take 10 (sort_createdAt_desc
                                             (filter (λ d, user d = uid) ds)));
                        Sent (export_csv (filter (λ u, s_role u = "student") us)
                                (uniformMap (group_first (sort_createdAt_desc ds)))) ])) ∧
  (∀ m, LoadResolved m ∈ evs →
     ∀ req, detect_image req σ = classify m req σ ∧
       (detect_image req σ).1 ≠ Done (Json 500 (ErrorBody "Model not ready")) ∧
       ∀ buffer v, file req = Some buffer → decodeImage buffer 3 = Some v →
         match predict m (preprocess v) with
         | Some out =>
             (detect_image req σ).1
             = Done (Json 200 (ResultBody (decide_label (dataSync out))
                                 (decide_confidence (dataSync out))))
         | None => (detect_image req σ).1 = Threw PredictThrew
         end) ∧
  (∀ uid, step σ (GetDetect uid)
          = Some (σ, Rendered (detect_history uid (detections σ)))) ∧
  step σ GetExport = Some (σ, Sent (teacher_export (users σ) (detections σ))).
Proof.
  intros Hrun.
  destruct (run_loading evs (boot ds us) σ rs eq_refl eq_refl Hrun)
    as (Hnone & Hrej & Hres).
  split_and!; [| | |done|done].
  - intros Hno.
    destruct (run_without_model evs (boot ds us) σ rs Hrun eq_refl Hno)
      as (Hm & Hd & Hu).
    split_and!; [|done|done]. intros req. by apply not_ready_answer.
  - intros Hin more σ' rs' Hmore.
    destruct (Hrej Hin) as [Hm Hl].
    destruct (run_settled more _ _ _ Hl Hmore) as (Hm' & _ & Hno' & _).
    assert (∀ m, LoadResolved m ∉ evs) as Hno.
    { intros m Hm1. specialize (Hres m Hm1). congruence. }
    destruct (run_without_model evs (boot ds us) σ rs Hrun eq_refl Hno)
      as (_ & Hd & Hu).
    destruct (run_without_model more σ σ' rs' Hmore Hm Hno') as (Hm2 & Hd' & Hu').
    simpl in Hd, Hu.
    split_and!; [|congruence|congruence|].
    + intros req. by apply not_ready_answer.
    + intros uid. simpl. unfold detect_history, teacher_export, events_of,
        find_students, Detection_aggregate.
      by rewrite Hd', Hu', Hd, Hu.
  - intros m Hin req. specialize (Hres m Hin).
    assert (detect_image req σ = classify m req σ) as Heq
      by (unfold detect_image; by rewrite Hres).
    split_and!; [done| |].
    + rewrite Heq, classify_paths.
      destruct (file req) as [buffer|]; [|done].
      destruct (decodeImage buffer 3) as [v|]; [|done].
      by destruct (predict m (preprocess v)).
    + intros buffer v Hf Hd.
      rewrite Heq, classify_paths, Hf, Hd. by destruct (predict m (preprocess v)).
Qed.

(** A process with two documents and two students: an upload before the
    loader is rejected, the rejection, another upload; both uploads are
    refused, and the history of the subject and the export are served as
    the two documents and the two students give them. *)
Lemma model_guard_after_rejected_load :
  @detect_image jpeg_only (upload jpeg_bytes) failed_with_data
  = (Done (Json 500 (ErrorBody "Model not ready")), failed_with_data) ∧
  @detections jpeg_only failed_with_data = [round_trip_T1; round_trip_T2] ∧
  @run jpeg_only stable_stage millis failed_with_data
    [@GetDetect jpeg_only 1; @GetExport jpeg_only]
  = Some (failed_with_data,
          [ Rendered [round_trip_T2; round_trip_T1];
            Sent ("Username,Email,Department,Year,Division,Uniform Status,Last Checked"
                  +:+ nl +:+
                  dq +:+ "s1" +:+ dq +:+ "," +:+ dq +:+ "s1@school.example" +:+ dq +:+ ","
                  +:+ dq +:+ "CS" +:+ dq +:+ "," +:+ dq +:+ "2" +:+ dq +:+ ","
                  +:+ dq +:+ "A" +:+ dq +:+ "," +:+ dq +:+ "No Data" +:+ dq +:+ ","
                  +:+ dq +:+ dq +:+ nl +:+
                  dq +:+ "s2" +:+ dq +:+ "," +:+ dq +:+ "s2@school.example" +:+ dq +:+ ","
                  +:+ dq +:+ "CS" +:+ dq +:+ "," +:+ dq +:+ "2" +:+ dq +:+ ","
                  +:+ dq +:+ "undefined" +:+ dq +:+ "," +:+ dq +:+ "Not in Uniform"
                  +:+ dq +:+ "," +:+ dq +:+ "2000" +:+ dq +:+ nl) ]).
Proof.
  pose proof (@model_guard jpeg_only stable_stage millis
                [round_trip_T1; round_trip_T2] [subject_S1; subject_S2]
                [ @PostDetectImage jpeg_only (upload jpeg_bytes);
                  @LoadRejected jpeg_only ]
                failed_with_data
                [ Handled (Done (Json 500 (ErrorBody "Model not ready")));
                  Logged "ML Load Error" ]
                eq_refl) as (_ & Hrej & _).
  destruct (Hrej ltac:(right; left)
              [@PostDetectImage jpeg_only (upload jpeg_bytes)]
              failed_with_data
              [Handled (Done (Json 500 (ErrorBody "Model not ready")))]
              eq_refl) as (Hrefused & Hds & _ & Hreports).
  split_and!.
  - exact (Hrefused (upload jpeg_bytes)).
  - exact Hds.
  - exact (Hreports 1%N).
Defined.

(** * Further facts about the handler, the decision and the reports *)

(** ** The label in terms of the first output *)

(** The label is "uniform" exactly when no output is larger than the first
    one: a tie between the first output and a later one goes to "uniform",
    and with three or more outputs every index but the first gives
    "not-uniform". *)
Theorem label_uniform_iff_first_is_largest (x : num) (rest : list num) :
  no_nan (x :: rest) →
  decide_label (x :: rest) = "uniform" ↔ ∀ y, y ∈ rest → num_le y x.
Proof.
  intros Hnn.
  destruct (maxIdx_spec (x :: rest)) as (i & m & Hi & Hl & _ & Hmax & Hlow);
    [done|done|].
  unfold decide_label, label_of. rewrite Hi. split.
  - intros Hlab. destruct i as [|i].
    + injection Hl as <-. intros y Hy.
      apply list_elem_of_lookup_1 in Hy as [j Hj]. by apply (Hmax (S j)).
    + rewrite bool_decide_eq_false_2 in Hlab by lia. discriminate.
  - intros Hall. destruct i as [|i]; [done|].
    assert (num_ltb x m = true) as Hlt by (apply (Hlow 0%nat); [lia|done]).
    assert (m ∈ rest) as Hm by (simpl in Hl; by apply list_elem_of_lookup_2 in Hl).
    specialize (Hall m Hm). unfold num_le in Hall. congruence.
Qed.

Lemma label_uniform_iff_first_is_largest_three :
  decide_label [Fin half; Fin half; Fin (Q2Qc (1 # 4))] = "uniform"
  ↔ ∀ y, y ∈ [Fin half; Fin (Q2Qc (1 # 4))] → num_le y (Fin half).
Proof.
  apply (label_uniform_iff_first_is_largest (Fin half)
           [Fin half; Fin (Q2Qc (1 # 4))]).
  repeat constructor; discriminate.
Defined.

(** One [NaN] among the outputs, wherever it stands and whatever the other
    outputs are, gives the label "not-uniform" with no confidence. *)
Theorem nan_output_is_not_uniform (data : list num) :
  NaN ∈ data → decision_rule data = ("not-uniform", None).
Proof.
  intros Hin. unfold decision_rule, decide_label, decide_confidence.
  by rewrite (maxIdx_nan data Hin).
Qed.

Lemma nan_output_is_not_uniform_after_one :
  decision_rule [Fin (Q2Qc (99 # 100)); NaN] = ("not-uniform", None).
Proof.
  apply (nan_output_is_not_uniform [Fin (Q2Qc (99 # 100)); NaN]).
  right; left.
Defined.

(** ** The exits of the handler *)

(** A request without a file, with the model loaded: reading
    [req.file.path] throws, nothing is answered, nothing is stored and no
    tensor is registered. *)
Theorem upload_without_file_throws `{TensorOps}
    (m : LayersModel) (req : Request) (σ : Server) :
  model σ = Some m → file req = None →
  detect_image req σ = (Threw NoFile, σ).
Proof.
  intros Hm Hf. unfold detect_image. by rewrite Hm, classify_paths, Hf.
Qed.

Lemma upload_without_file_throws_ready :
  @detect_image jpeg_only
    {| session_id := 1; session_username := "s1"; file := None; clock := 1000 |}
    (ready_process likely_uniform)
  = (Threw NoFile, ready_process likely_uniform).
Proof.
  apply (@upload_without_file_throws jpeg_only (constant_model likely_uniform));
    reflexivity.
Defined.

(** When [predict] throws, the handler throws with it: no document is
    stored, and the six tensors registered up to that point all stay
    registered. *)
Theorem predict_failure_keeps_six_tensors `{TensorOps}
    (m : LayersModel) (req : Request) (σ : Server)
    (buffer : list Byte.byte) (v : tensor) :
  model σ = Some m → file req = Some buffer →
  decodeImage buffer 3 = Some v → predict m (preprocess v) = None →
  engine_ok σ →
  (detect_image req σ).1 = Threw PredictThrew ∧
  detections (detect_image req σ).2 = detections σ ∧
  live (detect_image req σ).2 = ids_from (fresh σ) 6 ∪ live σ ∧
  size (live (detect_image req σ).2) = (6 + size (live σ))%nat.
Proof.
  intros Hm Hf Hd Hp Hok. unfold detect_image.
  rewrite Hm, classify_paths, Hf, Hd, Hp.
  destruct (after_predict_threw_live σ Hok) as [Hlive Hsize]. done.
Qed.

Lemma predict_failure_keeps_six_tensors_broken :
  (@detect_image jpeg_only (upload jpeg_bytes)
     (@set_model jpeg_only (Some broken_model) Settled (@boot jpeg_only [] []))).1
  = Threw PredictThrew ∧
  @detections jpeg_only
    (@detect_image jpeg_only (upload jpeg_bytes)
       (@set_model jpeg_only (Some broken_model) Settled (@boot jpeg_only [] []))).2
  = [] ∧
  @live jpeg_only
    (@detect_image jpeg_only (upload jpeg_bytes)
       (@set_model jpeg_only (Some broken_model) Settled (@boot jpeg_only [] []))).2
  = ids_from 0 6 ∪ ∅ ∧
  size (@live jpeg_only
    (@detect_image jpeg_only (upload jpeg_bytes)
       (@set_model jpeg_only (Some broken_model) Settled (@boot jpeg_only [] []))).2)
  = (6 + size (∅ : gset nat))%nat.
Proof.
  apply (@predict_failure_keeps_six_tensors jpeg_only broken_model
           (upload jpeg_bytes)
           (@set_model jpeg_only (Some broken_model) Settled (@boot jpeg_only [] []))
           jpeg_bytes []); try reflexivity.
  intros i Hi. by apply elem_of_empty in Hi.
Defined.

(** An answered request stores exactly one document, after the documents
    already stored; the document belongs to the session user, carries the
    time of the store and the source "upload", and its label and confidence
    are the ones of the answer. *)
Theorem answer_matches_stored_document `{TensorOps}
    (m : LayersModel) (req : Request) (σ : Server)
    (buffer : list Byte.byte) (v out : tensor) :
  model σ = Some m → file req = Some buffer →
  decodeImage buffer 3 = Some v → predict m (preprocess v) = Some out →
  ∃ lbl conf,
    (detect_image req σ).1 = Done (Json 200 (ResultBody lbl conf)) ∧
    (lbl = "uniform" ∨ lbl = "not-uniform") ∧
    detections (detect_image req σ).2
    = detections σ ++
        [ {| user := session_id req; username := session_username req;
             label := lbl; confidence := conf;
             isCompliant := bool_decide (lbl = "uniform");
             source := "upload"; createdAt := clock req |} ] ∧
    users (detect_image req σ).2 = users σ ∧
    model (detect_image req σ).2 = Some m.
Proof.
  intros Hm Hf Hd Hp.
  exists (label_of (maxIdx (dataSync out))),
         (at_index (dataSync out) (maxIdx (dataSync out))).
  unfold detect_image. rewrite Hm, classify_paths, Hf, Hd, Hp.
  split_and!; try done.
  unfold label_of. case_bool_decide; [by left|by right].
Qed.

Lemma answer_matches_stored_document_upload :
  ∃ lbl conf,
    (@detect_image jpeg_only (upload jpeg_bytes) (ready_process likely_uniform)).1
    = Done (Json 200 (ResultBody lbl conf)) ∧
    (lbl = "uniform" ∨ lbl = "not-uniform") ∧
    @detections jpeg_only
      (@detect_image jpeg_only (upload jpeg_bytes) (ready_process likely_uniform)).2
    = @detections jpeg_only (ready_process likely_uniform) ++
        [ {| user := 1; username := "s1"; label := lbl; confidence := conf;
             isCompliant := bool_decide (lbl = "uniform");
             source := "upload"; createdAt := 1000 |} ] ∧
    @users jpeg_only
      (@detect_image jpeg_only (upload jpeg_bytes) (ready_process likely_uniform)).2
    = @users jpeg_only (ready_process likely_uniform) ∧
    @model jpeg_only
      (@detect_image jpeg_only (upload jpeg_bytes) (ready_process likely_uniform)).2
    = Some (constant_model likely_uniform).
Proof.
  apply (@answer_matches_stored_document jpeg_only (constant_model likely_uniform)
           (upload jpeg_bytes) (ready_process likely_uniform) jpeg_bytes [] likely_uniform);
    reflexivity.
Defined.

(** ** The history page *)

(** [GET /detect] shows the ten newest documents of the session user, newest
    first: every document shown is one of the user's documents, they are at
    most ten (all of them when the user has fewer), and no document of the
    user that is left out is newer than one that is shown. *)
Theorem history_is_ten_newest `{SortStage} (uid : ObjectId) (coll : list Detection) :
  ∃ rest,
    detect_history uid coll ++ rest ≡ₚ events_of uid coll ∧
    length (detect_history uid coll) = (10 `min` length (events_of uid coll))%nat ∧
    (∀ d, d ∈ detect_history uid coll → d ∈ coll ∧ user d = uid) ∧
    StronglySorted newer_first (detect_history uid coll) ∧
    (∀ h r, h ∈ detect_history uid coll → r ∈ rest → createdAt r ≤ createdAt h).
Proof.
  destruct (sort_createdAt_desc_ok (events_of uid coll)) as [Hperm Hsorted].
  exists (drop 10 (sort_createdAt_desc (events_of uid coll))).
  unfold detect_history.
  rewrite take_drop. split_and!.
  - done.
  - rewrite length_take. by rewrite Hperm.
  - intros d Hd.
    assert (d ∈ events_of uid coll) as Hin.
    { rewrite <- Hperm. by apply (subseteq_take 10). }
    apply list_elem_of_filter in Hin as [? ?]. done.
  - rewrite <- (take_drop 10) in Hsorted.
    by apply StronglySorted_app_1_l in Hsorted.
  - intros h r Hh Hr. rewrite <- (take_drop 10) in Hsorted.
    apply (StronglySorted_app_1_elem_of _ _ _ _ _ Hsorted Hh Hr).
Qed.

(** ** One group per subject *)

(** The aggregation yields exactly one group for every subject that has a
    document, and none for the others. *)
Theorem aggregate_one_group_per_subject `{SortStage} (coll : list Detection) :
  NoDup (_id <$> Detection_aggregate coll) ∧
  ∀ k, k ∈ _id <$> Detection_aggregate coll ↔ ∃ e, e ∈ coll ∧ user e = k.
Proof.
  destruct (sort_createdAt_desc_ok coll) as [Hperm _].
  unfold Detection_aggregate, group_first. split.
  - apply foldl_group_step_NoDup. constructor.
  - intros k.
    pose proof (foldl_group_step (sort_createdAt_desc coll) [] k) as Hg.
    change (group_of k []) with (@None Group) in Hg. cbn in Hg.
    split.
    + intros Hin. destruct (decide (events_of k coll = [])) as [Hnil|Hne].
      * exfalso. revert Hin. apply group_of_None. rewrite Hg.
        assert (events_of k (sort_createdAt_desc coll) = []) as ->; [|done].
        rewrite events_of_nil_iff in Hnil. apply events_of_nil_iff.
        intros e He. apply Hnil. by rewrite <- Hperm.
      * destruct (events_of k coll) as [|e l] eqn:E; [done|].
        assert (e ∈ events_of k coll) as He by (rewrite E; left).
        apply list_elem_of_filter in He as [? ?]. by exists e.
    + intros (e & He & Hk). destruct (decide (k ∈ _id <$>
        foldl group_step [] (sort_createdAt_desc coll))) as [|Hnot]; [done|].
      apply group_of_None in Hnot. rewrite Hg in Hnot.
      apply fmap_None, head_None in Hnot. rewrite events_of_nil_iff in Hnot.
      destruct (Hnot e); [by rewrite Hperm|done].
Qed.

(** ** The export, end to end *)

(** The export is the header line followed by one line per user with the
    role "student", in the order of the collection, and no line for other
    users; a line holds the seven values between double quotes, separated
    by commas and ended by a line feed.  The status written for a student
    without documents is "No Data" with an empty date; for a student with
    one strictly newest document it is the one of that document, with its
    date.  The same is stated on the rows. *)
Theorem export_reports_newest `{SortStage} `{DateFormat}
    (us : list User) (coll : list Detection) :
  let Q := String "034" EmptyString in
  let LF := String "010" EmptyString in
  let opt := λ v : option string, match v with Some x => x | None => "undefined" end in
  (∃ st date : User → string,
     teacher_export us coll
     = ("Username,Email,Department,Year,Division,Uniform Status,Last Checked" +:+ LF) +:+
       String.concat EmptyString
         ((λ s, Q +:+ s_username s +:+ Q +:+ "," +:+
                Q +:+ s_email s +:+ Q +:+ "," +:+
                Q +:+ opt (s_department s) +:+ Q +:+ "," +:+
                Q +:+ opt (s_year s) +:+ Q +:+ "," +:+
                Q +:+ opt (s_division s) +:+ Q +:+ "," +:+
                Q +:+ st s +:+ Q +:+ "," +:+
                Q +:+ date s +:+ Q +:+ LF)
            <$> filter (λ u, s_role u = "student") us) ∧
     ∀ s, (events_of (s_id s) coll = [] →
             st s = "No Data" ∧ date s = EmptyString) ∧
          (∀ e, e ∈ coll → user e = s_id s →
             (∀ e', e' ∈ coll → user e' = s_id s → e' ≠ e →
                    createdAt e' < createdAt e) →
             st s = (if isCompliant e then "Uniform OK" else "Not in Uniform") ∧
             date s = Date_toString (createdAt e))) ∧
  teacher_export us coll
  = csv_header +:+
    lines_text (report_rows (find_students us) (uniformMap (Detection_aggregate coll))) ∧
  length (report_rows (find_students us) (uniformMap (Detection_aggregate coll)))
  = length (filter (λ u, s_role u = "student") us) ∧
  ∀ (i : nat) s, find_students us !! i = Some s →
    s ∈ us ∧ s_role s = "student" ∧
    ∃ st checked,
      report_rows (find_students us) (uniformMap (Detection_aggregate coll)) !! i
      = Some [ s_username s; s_email s; interpolate (s_department s);
               interpolate (s_year s); interpolate (s_division s); st; checked ] ∧
      (events_of (s_id s) coll = [] → st = "No Data" ∧ checked = EmptyString) ∧
      (∀ e, e ∈ coll → user e = s_id s →
         (∀ e', e' ∈ coll → user e' = s_id s → e' ≠ e → createdAt e' < createdAt e) →
         st = (if isCompliant e then "Uniform OK" else "Not in Uniform") ∧
         checked = Date_toString (createdAt e)).
Proof.
  intros Q LF opt.
  assert (∀ s,
    (events_of (s_id s) coll = [] →
       status (uniformMap (Detection_aggregate coll) !! s_id s) = "No Data" ∧
       last_checked (uniformMap (Detection_aggregate coll) !! s_id s) = EmptyString) ∧
    (∀ e, e ∈ coll → user e = s_id s →
       (∀ e', e' ∈ coll → user e' = s_id s → e' ≠ e → createdAt e' < createdAt e) →
       status (uniformMap (Detection_aggregate coll) !! s_id s)
       = (if isCompliant e then "Uniform OK" else "Not in Uniform") ∧
       last_checked (uniformMap (Detection_aggregate coll) !! s_id s)
       = Date_toString (createdAt e))) as Hcells.
  { intros s. rewrite aggregate_latest.
    destruct (latest_of_sort_stage coll _ (s_id s) (sort_createdAt_desc_ok coll))
      as (Hnil & _ & Hstrict).
    split.
    - intros He. by rewrite (Hnil He).
    - intros e He Hu Hnew. rewrite (Hstrict e He Hu Hnew). simpl.
      by destruct (isCompliant e). }
  split_and!.
  - exists (λ s, status (uniformMap (Detection_aggregate coll) !! s_id s)),
           (λ s, last_checked (uniformMap (Detection_aggregate coll) !! s_id s)).
    split; [|exact Hcells].
    unfold teacher_export, export_csv, find_students.
    rewrite export_csv_from, lines_text_concat.
    unfold csv_header, nl, LF. f_equal. f_equal.
    unfold report_rows. rewrite <- list_fmap_compose.
    apply list_fmap_ext. intros _ s _. simpl.
    unfold report_row, row_fields. rewrite csv_line_text.
    unfold Q, LF, opt, interpolate. string_norm. reflexivity.
  - apply export_csv_from.
  - unfold report_rows, find_students. by rewrite length_fmap.
  - intros i s Hi.
    assert (s ∈ find_students us) as Hs by by apply list_elem_of_lookup_2 in Hi.
    apply list_elem_of_filter in Hs as [Hrole Hin].
    split_and!; [done|done|].
    exists (status (uniformMap (Detection_aggregate coll) !! s_id s)),
           (last_checked (uniformMap (Detection_aggregate coll) !! s_id s)).
    split; [|exact (Hcells s)].
    unfold report_rows. by rewrite list_lookup_fmap, Hi.
Qed.

(** ** Values without a double quote in the export *)

(** A line of the export whose seven values hold no double quote reads back
    as the seven values it was written from, commas and line feeds inside
    the values included. *)
Theorem export_row_reads_back `{DateFormat} (s : User) (info : option Group) :
  Forall (λ f, has_dquote f = false) (row_fields s info) →
  parse_record (csv_record (row_fields s info)) = Some (row_fields s info) ∧
  length (row_fields s info) = 7%nat.
Proof.
  intros Hplain. split; [|done].
  apply parse_csv_record_plain; [|done].
  unfold row_fields. discriminate.
Qed.

(** A student whose user name holds a comma. *)
Lemma export_row_reads_back_comma :
  parse_record
    (csv_record
       (@row_fields millis
          {| s_id := 11; s_username := "Doe, Jane"; s_email := "jane@school.example";
             s_department := Some "CS"; s_year := None; s_division := Some "A";
             s_role := "student" |} None))
  = Some ["Doe, Jane"; "jane@school.example"; "CS"; "undefined"; "A"; "No Data";
          EmptyString] ∧
  length
    (@row_fields millis
       {| s_id := 11; s_username := "Doe, Jane"; s_email := "jane@school.example";
          s_department := Some "CS"; s_year := None; s_division := Some "A";
          s_role := "student" |} None)
  = 7%nat.
Proof.
  apply (@export_row_reads_back millis
           {| s_id := 11; s_username := "Doe, Jane"; s_email := "jane@school.example";
              s_department := Some "CS"; s_year := None; s_division := Some "A";
              s_role := "student" |} None).
  repeat constructor.
Defined.

(** * Sessions and routes *)

Section Routes.
Context `{TensorOps} `{SortStage} `{UserSort} `{DateFormat}.

Lemma session_of_set_session (sid : N) (s : Session) (a : App) :
  session_of (set_session sid s a) sid = s.
Proof. unfold session_of, set_session. simpl. by rewrite lookup_insert_eq. Qed.

Lemma session_of_destroy (sid : N) (a : App) :
  session_of (destroy_session sid a) sid = no_session.
Proof. unfold session_of, destroy_session. simpl. by rewrite lookup_delete_eq. Qed.

Lemma User_create_Some (username email password : string)
    (department year division : option string) (store : option ObjectId)
    (a a' : App) (user : User) :
  User_create username email password department year division store a
  = Some (user, a') →
  ∃ id, store = Some id ∧ (id ∉ s_id <$> users (process a)) ∧
    user = {| s_id := id; s_username := username; s_email := email;
              s_department := department; s_year := year;
              s_division := division; s_role := "student" |} ∧
    users (process a') = users (process a) ++ [user] ∧
    detections (process a') = detections (process a) ∧
    model (process a') = model (process a) ∧
    loader (process a') = loader (process a) ∧
    live (process a') = live (process a) ∧
    passwords a' = <[id := password]> (passwords a) ∧
    sessions a' = sessions a.
Proof.
  unfold User_create. destruct store as [id|]; [|done].
  case_bool_decide as Hin; [done|]. intros [= <- <-].
  exists id. by split_and!.
Qed.

Lemma selects_field_Text (s : string) (field : option string) :
  selects_field (Text s) field = Some true ↔ field = Some s.
Proof.
  simpl. split.
  - intros Hs. injection Hs as Hs. by apply bool_decide_eq_true in Hs.
  - intros ->. by rewrite bool_decide_eq_true_2.
Qed.

Lemma User_findOne_query (username password : FormValue) (a : App) :
  username ≠ Structured None → password ≠ Structured None →
  User_findOne username password a
  = Some (head (filter
                  (λ u, selects_field username (Some (s_username u)) = Some true ∧
                        selects_field password (passwords a !! s_id u) = Some true)
                  (users (process a)))).
Proof.
  intros Hu Hp. unfold User_findOne.
  destruct username as [?|[?|]], password as [?|[?|]]; done.
Qed.

Lemma User_findOne_threw (username password : FormValue) (a : App) :
  username = Structured None ∨ password = Structured None →
  User_findOne username password a = None.
Proof.
  unfold User_findOne. intros [-> | ->]; [done|].
  destruct username as [?|[?|]]; done.
Qed.

Lemma User_findOne_answer (username password : FormValue) (a : App) (found : option User) :
  User_findOne username password a = Some found →
  found = head (filter
                  (λ u, selects_field username (Some (s_username u)) = Some true ∧
                        selects_field password (passwords a !! s_id u) = Some true)
                  (users (process a))).
Proof.
  unfold User_findOne. intros Hf.
  destruct username as [?|[?|]], password as [?|[?|]]; congruence.
Qed.

Lemma User_findOne_Some (username password : FormValue) (a : App) (user : User) :
  User_findOne username password a = Some (Some user) →
  user ∈ users (process a) ∧
  selects_field username (Some (s_username user)) = Some true ∧
  selects_field password (passwords a !! s_id user) = Some true.
Proof.
  intros Hh. apply User_findOne_answer in Hh. symmetry in Hh.
  assert (user ∈ filter
            (λ u, selects_field username (Some (s_username u)) = Some true ∧
                  selects_field password (passwords a !! s_id u) = Some true)
            (users (process a))) as Hin.
  { destruct (filter _ _) as [|x l]; [done|]. injection Hh as ->. left. }
  apply list_elem_of_filter in Hin as [[? ?] ?]. done.
Qed.

Lemma User_findOne_None (username password : FormValue) (a : App) :
  User_findOne username password a = Some None →
  ∀ u, u ∈ users (process a) →
       ¬ (selects_field username (Some (s_username u)) = Some true ∧
          selects_field password (passwords a !! s_id u) = Some true).
Proof.
  intros Hh u Hu Hmatch. apply User_findOne_answer in Hh. symmetry in Hh.
  apply head_None in Hh.
  assert (u ∈ filter
            (λ u, selects_field username (Some (s_username u)) = Some true ∧
                  selects_field password (passwords a !! s_id u) = Some true)
            (users (process a))) as Hin by by apply list_elem_of_filter.
  rewrite Hh in Hin. by apply elem_of_nil in Hin.
Qed.

(** What one request can do to the application. *)
Lemma route_effects (env : Env) (sid : N) (h : Http) (a a' : App) (r : HttpResponse) :
  route env sid h a = (r, a') →
  (∀ sid', sid' ≠ sid → sessions a' !! sid' = sessions a !! sid') ∧
  model (process a') = model (process a) ∧
  loader (process a') = loader (process a) ∧
  (sess_isTeacher (session_of a' sid) = true →
     sess_isTeacher (session_of a sid) = true ∨
     h = POST_teacher_login (Some (TEACHER_ID env)) (Some (TEACHER_PASSWORD env))) ∧
  (∀ u, sess_user (session_of a' sid) = Some u →
     sess_user (session_of a sid) = Some u ∨
     (u ∈ users (process a') ∧
      ((∃ name pw, h = POST_login name pw true) ∨
       (∃ name email pw d y v st, h = POST_signup name email pw d y v st)))) ∧
  (users (process a') = users (process a) ∨
   ∃ user, users (process a') = users (process a) ++ [user] ∧
           s_role user = "student" ∧ s_id user ∉ (s_id <$> users (process a))) ∧
  (detections (process a') = detections (process a) ∨
   ∃ u data now,
     sess_user (session_of a sid) = Some u ∧
     detections (process a')
     = detections (process a) ++
         [ stored_event {| session_id := s_id u; session_username := s_username u;
                           file := None; clock := now |} data ]).
Proof.
  unfold route.
  destruct h as [| |name email pw d y v st| |name pw db| | | |tid pw| |d y v| |image now|].
  - intros [= <- <-]. split_and!; auto.
  - destruct (sess_user (session_of a sid)) eqn:Hu; intros [= <- <-];
      split_and!; auto; intros; left; congruence.
  - destruct (User_create _ _ _ _ _ _ _ _) as [[user a1]|] eqn:Hc.
    + intros [= <- <-].
      destruct (User_create_Some _ _ _ _ _ _ _ _ _ _ Hc)
        as (id & -> & Hfresh & Huser & Hus & Hds & Hm & Hl & _ & Hpw & Hss).
      rewrite session_of_set_session. simpl. split_and!.
      * intros sid' Hne. rewrite lookup_insert_ne by done. by rewrite Hss.
      * done.
      * done.
      * intros Ht. left. done.
      * intros u [= <-]. right. split.
        -- rewrite Hus. apply elem_of_app. right. left.
        -- right. by exists name, email, pw, d, y, v, (Some id).
      * right. exists user. split_and!; [done|by rewrite Huser|by rewrite Huser].
      * by left.
    + intros [= <- <-]. split_and!; auto.
  - destruct (sess_user (session_of a sid)) eqn:Hu; intros [= <- <-];
      split_and!; auto; intros; left; congruence.
  - destruct db.
    + destruct (User_findOne name pw a) as [[user|]|] eqn:Hf.
      * intros [= <- <-]. rewrite session_of_set_session. simpl.
        apply User_findOne_Some in Hf as (Hin & _ & _). split_and!; auto.
        -- intros sid' Hne. by rewrite lookup_insert_ne.
        -- intros u [= <-]. right. split; [done|]. left. by exists name, pw.
      * intros [= <- <-]. split_and!; auto.
      * intros [= <- <-]. split_and!; auto.
    + intros [= <- <-]. split_and!; auto.
  - intros [= <- <-]. rewrite session_of_destroy. simpl. split_and!; auto.
    + intros sid' Hne. by rewrite lookup_delete_ne.
    + done.
    + done.
  - unfold requireLogin. destruct (sess_user (session_of a sid)) eqn:Hu;
      intros [= <- <-]; split_and!; auto; intros; left; congruence.
  - intros [= <- <-]. split_and!; auto.
  - case_match eqn:Hcred.
    + intros [= <- <-]. rewrite session_of_set_session. simpl.
      apply andb_true_iff in Hcred as [Hc1%bool_decide_eq_true Hc2%bool_decide_eq_true].
      subst. split_and!; auto.
      intros sid' Hne. by rewrite lookup_insert_ne.
    + intros [= <- <-]. split_and!; auto.
  - intros [= <- <-]. rewrite session_of_set_session. simpl. split_and!; auto.
    + intros sid' Hne. by rewrite lookup_insert_ne.
    + done.
  - unfold requireTeacher. destruct (sess_isTeacher (session_of a sid)) eqn:Ht;
      intros [= <- <-]; split_and!; auto; intros; congruence.
  - unfold requireTeacher. destruct (sess_isTeacher (session_of a sid)) eqn:Ht;
      intros [= <- <-]; split_and!; auto; intros; congruence.
  - unfold requireLogin. destruct (sess_user (session_of a sid)) as [u|] eqn:Hu.
    + set (req := {| session_id := s_id u; session_username := s_username u;
                     file := image; clock := now |}).
      destruct (detect_image req (process a)) as [o σ] eqn:Hd.
      intros [= <- <-]. simpl.
      pose proof (detect_image_model req (process a)) as (Hm & Hl & Hus).
      pose proof (detect_image_detections req (process a)) as Hds.
      rewrite Hd in Hm, Hl, Hus, Hds. simpl in Hm, Hl, Hus, Hds.
      unfold session_of. simpl. fold (session_of a sid). rewrite Hu.
      split_and!; auto.
      destruct Hds as [Hds|[data Hds]]; [by left|].
      right. exists u, data, now. split; [done|]. by rewrite Hds.
    + intros [= <- <-]. split_and!; auto; intros; congruence.
  - intros [= <- <-]. split_and!; auto.
Qed.

(** What one step of the application can do. *)
Lemma app_step_effects (env : Env) (a a' : App) (ev : Incoming)
    (r : option HttpResponse) :
  app_step env a ev = Some (a', r) →
  (∀ sid, (∀ h, ev ≠ Web sid h) → sessions a' !! sid = sessions a !! sid) ∧
  (∀ sid, sess_isTeacher (session_of a' sid) = true →
     sess_isTeacher (session_of a sid) = true ∨
     ev = Web sid (POST_teacher_login (Some (TEACHER_ID env))
                     (Some (TEACHER_PASSWORD env)))) ∧
  (∀ sid u, sess_user (session_of a' sid) = Some u →
     sess_user (session_of a sid) = Some u ∨
     (u ∈ users (process a') ∧
      ((∃ name pw, ev = Web sid (POST_login name pw true)) ∨
       (∃ name email pw d y v st, ev = Web sid (POST_signup name email pw d y v st))))) ∧
  (users (process a') = users (process a) ∨
   ∃ user, users (process a') = users (process a) ++ [user] ∧
           s_role user = "student" ∧ s_id user ∉ (s_id <$> users (process a))) ∧
  (detections (process a') = detections (process a) ∨
   ∃ sid u data now,
     sess_user (session_of a sid) = Some u ∧
     detections (process a')
     = detections (process a) ++
         [ stored_event {| session_id := s_id u; session_username := s_username u;
                           file := None; clock := now |} data ]).
Proof.
  destruct ev as [m|sid h]; simpl.
  - destruct (step (process a) _) as [[σ rep]|] eqn:Hstep; [|done].
    intros [= <- <-].
    assert (detections σ = detections (process a) ∧ users σ = users (process a))
      as [Hds Hus].
    { destruct m as [m|]; simpl in Hstep; destruct (loader (process a));
        try done; by injection Hstep as <- _. }
    unfold session_of. simpl. split_and!; auto.
  - destruct (route env sid h a) as [resp a1] eqn:Hr. intros [= <- <-].
    destruct (route_effects env sid h a a1 resp Hr)
      as (Hother & _ & _ & Ht & Hu & Hus & Hds).
    split_and!.
    + intros sid' Hne. apply Hother. intros ->. by apply (Hne h).
    + intros sid' Hflag. destruct (decide (sid' = sid)) as [->|Hne].
      * destruct (Ht Hflag) as [?| ->]; [by left|by right].
      * left. unfold session_of in *. by rewrite <- (Hother sid' Hne).
    + intros sid' u Hsu. destruct (decide (sid' = sid)) as [->|Hne].
      * destruct (Hu u Hsu) as [?|[Hin Hh]]; [by left|]. right. split; [done|].
        destruct Hh as [(name & pw & ->)|(name & email & pw & d & y & v & st & ->)].
        -- left. by exists name, pw.
        -- right. by exists name, email, pw, d, y, v, st.
      * left. unfold session_of in *. by rewrite <- (Hother sid' Hne).
    + done.
    + destruct Hds as [?|(u & data & now & ? & ?)]; [by left|].
      right. by exists sid, u, data, now.
Qed.

Lemma app_run_app (env : Env) (l1 l2 : list Incoming) : ∀ (a a' : App) rs,
  app_run env a (l1 ++ l2) = Some (a', rs) →
  ∃ a1 rs1 rs2, app_run env a l1 = Some (a1, rs1) ∧
                app_run env a1 l2 = Some (a', rs2) ∧ rs = rs1 ++ rs2 ∧
                length rs1 = length l1.
Proof.
  induction l1 as [|ev l1 IH]; intros a a' rs Hrun; simpl in *.
  - by exists a, [], rs.
  - destruct (app_step env a ev) as [[a1 r]|]; [|done].
    destruct (app_run env a1 (l1 ++ l2)) as [[a2 rs']|] eqn:Hrest; [|done].
    injection Hrun as <- <-.
    destruct (IH _ _ _ Hrest) as (a3 & rs1 & rs2 & -> & Hr2 & -> & Hlen).
    exists a3, (r :: rs1), rs2. split_and!; [done|done|done|simpl; lia].
Qed.

(** The teacher flag of a session is raised by nothing but a login with the
    configured credentials. *)
Lemma teacher_flag_origin (env : Env) (evs : list Incoming) : ∀ (a a' : App) rs sid,
  app_run env a evs = Some (a', rs) →
  sess_isTeacher (session_of a' sid) = true →
  sess_isTeacher (session_of a sid) = true ∨
  Web sid (POST_teacher_login (Some (TEACHER_ID env)) (Some (TEACHER_PASSWORD env)))
    ∈ evs.
Proof.
  induction evs as [|ev evs IH]; intros a a' rs sid Hrun Hflag; simpl in Hrun.
  - injection Hrun as <- _. by left.
  - destruct (app_step env a ev) as [[a1 r]|] eqn:Hstep; [|done].
    destruct (app_run env a1 evs) as [[a2 rs']|] eqn:Hrest; [|done].
    injection Hrun as <- _.
    destruct (IH _ _ _ sid Hrest Hflag) as [H1'|Hin]; [|right; by right].
    destruct (app_step_effects _ _ _ _ _ Hstep) as (_ & Ht & _).
    destruct (Ht sid H1') as [?| ->]; [by left|right; left].
Qed.

(** The user of a session is set by nothing but a login or a signup of that
    session. *)
Lemma session_user_origin (env : Env) (evs : list Incoming) : ∀ (a a' : App) rs sid u,
  app_run env a evs = Some (a', rs) →
  sess_user (session_of a' sid) = Some u →
  sess_user (session_of a sid) = Some u ∨
  (∃ name pw, Web sid (POST_login name pw true) ∈ evs) ∨
  (∃ name email pw d y v st, Web sid (POST_signup name email pw d y v st) ∈ evs).
Proof.
  induction evs as [|ev evs IH]; intros a a' rs sid u Hrun Hu; simpl in Hrun.
  - injection Hrun as <- _. by left.
  - destruct (app_step env a ev) as [[a1 r]|] eqn:Hstep; [|done].
    destruct (app_run env a1 evs) as [[a2 rs']|] eqn:Hrest; [|done].
    injection Hrun as <- _.
    destruct (IH _ _ _ sid u Hrest Hu) as [Hu1|[Hin|Hin]].
    + destruct (app_step_effects _ _ _ _ _ Hstep) as (_ & _ & Hus & _).
      destruct (Hus sid u Hu1) as [?|[_ [(name & pw & ->)|Hs]]]; [by left| |].
      * right. left. exists name, pw. left.
      * destruct Hs as (name & email & pw & d & y & v & st & ->).
        right. right. exists name, email, pw, d, y, v, st. left.
    + destruct Hin as (name & pw & Hin). right. left. exists name, pw. by right.
    + destruct Hin as (name & email & pw & d & y & v & st & Hin).
      right. right. exists name, email, pw, d, y, v, st. by right.
Qed.

End Routes.

Section RouteTheorems.
Context `{TensorOps} `{SortStage} `{UserSort} `{DateFormat}.

(** In every run, a request for a teacher page by a session that did not
    start as a teacher is either sent to the teacher login, or the session
    has posted the configured teacher credentials earlier in the run. *)
Theorem teacher_pages_need_teacher_login (env : Env) (a a' : App)
    (pre post : list Incoming) (sid : N) (h : Http) (rs : list (option HttpResponse)) :
  app_run env a (pre ++ Web sid h :: post) = Some (a', rs) →
  sess_isTeacher (session_of a sid) = false →
  teacher_page h →
  rs !! length pre = Some (Some (Redirect "/teacher-login")) ∨
  Web sid (POST_teacher_login (Some (TEACHER_ID env)) (Some (TEACHER_PASSWORD env)))
    ∈ pre.
Proof.
  intros Hrun Hstart Hpage.
  destruct (app_run_app env pre (Web sid h :: post) a a' rs Hrun)
    as (a1 & rs1 & rs2 & Hpre & Hpost & -> & Hlen).
  destruct (sess_isTeacher (session_of a1 sid)) eqn:Hflag.
  - right. destruct (teacher_flag_origin env pre a a1 rs1 sid Hpre Hflag); [congruence|done].
  - left. simpl in Hpost.
    destruct (route env sid h a1) as [resp a2] eqn:Hr.
    destruct (app_run env a2 post) as [[a3 rs3]|]; [|done].
    injection Hpost as _ <-.
    rewrite lookup_app_r by lia. rewrite Hlen, Nat.sub_diag. simpl.
    unfold route, requireTeacher in Hr. rewrite Hflag in Hr.
    destruct Hpage as [->|(d & y & v & ->)]; by injection Hr as <- _.
Qed.

(** In every run, a request for the history page or an upload by a session
    that did not start with a user is either sent to the login page, or the
    session has logged in or signed up earlier in the run. *)
Theorem user_pages_need_login (env : Env) (a a' : App)
    (pre post : list Incoming) (sid : N) (h : Http) (rs : list (option HttpResponse)) :
  app_run env a (pre ++ Web sid h :: post) = Some (a', rs) →
  sess_user (session_of a sid) = None →
  user_page h →
  rs !! length pre = Some (Some (Redirect "/login")) ∨
  (∃ name pw, Web sid (POST_login name pw true) ∈ pre) ∨
  (∃ name email pw d y v st, Web sid (POST_signup name email pw d y v st) ∈ pre).
Proof.
  intros Hrun Hstart Hpage.
  destruct (app_run_app env pre (Web sid h :: post) a a' rs Hrun)
    as (a1 & rs1 & rs2 & Hpre & Hpost & -> & Hlen).
  destruct (sess_user (session_of a1 sid)) as [u|] eqn:Hu.
  - right. destruct (session_user_origin env pre a a1 rs1 sid u Hpre Hu); [congruence|done].
  - left. simpl in Hpost.
    destruct (route env sid h a1) as [resp a2] eqn:Hr.
    destruct (app_run env a2 post) as [[a3 rs3]|]; [|done].
    injection Hpost as _ <-.
    rewrite lookup_app_r by lia. rewrite Hlen, Nat.sub_diag. simpl.
    unfold route, requireLogin in Hr. rewrite Hu in Hr.
    destruct Hpage as [->|(image & now & ->)]; by injection Hr as <- _.
Qed.

Lemma app_run_users_incl (env : Env) (evs : list Incoming) : ∀ (a a' : App) rs u,
  app_run env a evs = Some (a', rs) → u ∈ users (process a) → u ∈ users (process a').
Proof.
  induction evs as [|ev evs IH]; intros a a' rs u Hrun Hu; simpl in Hrun.
  - by injection Hrun as <- _.
  - destruct (app_step env a ev) as [[a1 r]|] eqn:Hstep; [|done].
    destruct (app_run env a1 evs) as [[a2 rs']|] eqn:Hrest; [|done].
    injection Hrun as <- _. apply (IH _ _ _ u Hrest).
    destruct (app_step_effects _ _ _ _ _ Hstep) as (_ & _ & _ & Hus & _).
    destruct Hus as [-> |(user & -> & _)]; [done|].
    apply elem_of_app. by left.
Qed.

(** No run removes or changes a user document: the collection grows at its
    end, by documents with the role "student", and the [_id]s stay distinct. *)
Theorem users_only_grow (env : Env) (evs : list Incoming) :
  ∀ (a a' : App) rs,
    app_run env a evs = Some (a', rs) →
    ∃ added, users (process a') = users (process a) ++ added ∧
             Forall (λ u, s_role u = "student") added ∧
             (NoDup (s_id <$> users (process a)) →
              NoDup (s_id <$> users (process a'))).
Proof.
  induction evs as [|ev evs IH]; intros a a' rs Hrun; simpl in Hrun.
  - injection Hrun as <- _. exists []. by rewrite app_nil_r.
  - destruct (app_step env a ev) as [[a1 r]|] eqn:Hstep; [|done].
    destruct (app_run env a1 evs) as [[a2 rs']|] eqn:Hrest; [|done].
    injection Hrun as <- _.
    destruct (IH _ _ _ Hrest) as (added & Hadd & Hall & Hnd).
    destruct (app_step_effects _ _ _ _ _ Hstep) as (_ & _ & _ & Hus & _).
    destruct Hus as [Hus|(user & Hus & Hrole & Hfresh)].
    + exists added. split_and!; [by rewrite Hadd, Hus|done|].
      intros Hnd0. apply Hnd. by rewrite Hus.
    + exists (user :: added). split_and!.
      * by rewrite Hadd, Hus, <- app_assoc.
      * by constructor.
      * intros Hnd0. apply Hnd. rewrite Hus, fmap_app.
        apply NoDup_app. split_and!; [done| |].
        -- intros x Hx Hx'. simpl in Hx'.
           apply list_elem_of_singleton in Hx' as ->. done.
        -- simpl. apply NoDup_singleton.
Qed.

Lemma app_step_known (env : Env) (a a' : App) (ev : Incoming)
    (r : option HttpResponse) :
  app_step env a ev = Some (a', r) → sessions_known a → sessions_known a'.
Proof.
  intros Hstep Hk sid u Hu.
  destruct (app_step_effects _ _ _ _ _ Hstep) as (_ & _ & Hsu & Hus & _).
  destruct (Hsu sid u Hu) as [Hold|[Hin _]]; [|done].
  specialize (Hk sid u Hold).
  destruct Hus as [->|(user & -> & _)]; [done|].
  apply elem_of_app. by left.
Qed.

(** The collection of detections is append-only under every run, and every
    document a run appends is an upload of a user whose document is in the
    [users] collection: it carries that user's [_id] and user name, and its
    flag agrees with its label. *)
Theorem detections_refer_to_users (env : Env) (evs : list Incoming) :
  ∀ (a a' : App) rs,
    sessions_known a →
    app_run env a evs = Some (a', rs) →
    ∃ new, detections (process a') = detections (process a) ++ new ∧
           ∀ d, d ∈ new →
             consistent d ∧ source d = "upload" ∧
             ∃ u, u ∈ users (process a') ∧ user d = s_id u ∧
                  username d = s_username u.
Proof.
  induction evs as [|ev evs IH]; intros a a' rs Hk Hrun; simpl in Hrun.
  - injection Hrun as <- _. exists []. rewrite app_nil_r. split; [done|].
    intros d Hd. by apply elem_of_nil in Hd.
  - destruct (app_step env a ev) as [[a1 r]|] eqn:Hstep; [|done].
    destruct (app_run env a1 evs) as [[a2 rs']|] eqn:Hrest; [|done].
    injection Hrun as <- _.
    pose proof (app_step_known _ _ _ _ _ Hstep Hk) as Hk1.
    destruct (IH _ _ _ Hk1 Hrest) as (new & Hnew & Hall).
    destruct (app_step_effects _ _ _ _ _ Hstep) as (_ & _ & _ & Hus & Hds).
    destruct Hds as [Hds|(sid & u & data & now & Hu & Hds)].
    + exists new. by rewrite Hnew, Hds.
    + exists (stored_event {| session_id := s_id u; session_username := s_username u;
                              file := None; clock := now |} data :: new).
      split; [by rewrite Hnew, Hds, <- app_assoc|].
      intros d Hd. apply elem_of_cons in Hd as [-> |Hd]; [|by apply Hall].
      split_and!; [apply stored_event_consistent|done|].
      exists u. split_and!; [|done|done].
      apply (app_run_users_incl env evs _ _ _ u Hrest).
      destruct Hus as [-> |(user & -> & _)]; [by apply Hk in Hu|].
      apply elem_of_app. left. by apply Hk in Hu.
Qed.

End RouteTheorems.

Section Credentials.
Context `{TensorOps} `{SortStage} `{UserSort} `{DateFormat}.

(** A login with the database up looks for a document that the two values
    of the form select.  Two strings select the documents that carry them
    as user name and as password, compared as they are stored: the login
    succeeds exactly when there is one, and binds the session to such a
    document; any other two strings are answered 400 and change nothing.
    A value that is no string is read as query operators: with
    [{ $ne: x }] for the password, the user name of a stored document logs
    in without its password.  In general the login succeeds exactly when
    some document is selected by both values, is answered 400 when none is,
    and 500 when a value cannot be cast; with the database down the answer
    is 500.  Nothing but the session of the request ever changes. *)
Theorem login_checks_stored_credentials (env : Env) (sid : N) (a : App) :
  let bound := λ user : User,
    set_session sid {| sess_user := Some user;
                       sess_isTeacher := sess_isTeacher (session_of a sid) |} a in
  let invalid :=
    Render 400 "users/login" (session_of a sid)
      (WithError "Invalid username or password") in
  (∀ name pw : string,
     ((∃ u, u ∈ users (process a) ∧ s_username u = name ∧
            passwords a !! s_id u = Some pw) →
        ∃ user, route env sid (POST_login (Text name) (Text pw) true) a
                = (Redirect "/detect", bound user) ∧
                user ∈ users (process a) ∧ s_username user = name ∧
                passwords a !! s_id user = Some pw) ∧
     (¬ (∃ u, u ∈ users (process a) ∧ s_username u = name ∧
              passwords a !! s_id u = Some pw) →
        route env sid (POST_login (Text name) (Text pw) true) a = (invalid, a))) ∧
  (∀ (x : string) (u : User),
     u ∈ users (process a) → passwords a !! s_id u ≠ Some x →
     ∃ user, route env sid
               (POST_login (Text (s_username u))
                  (Structured (Some (λ field, negb (bool_decide (field = Some x)))))
                  true) a
             = (Redirect "/detect", bound user) ∧
             user ∈ users (process a) ∧ s_username user = s_username u ∧
             passwords a !! s_id user ≠ Some x) ∧
  (∀ username password : FormValue,
     ((∃ u, u ∈ users (process a) ∧
            selects_field username (Some (s_username u)) = Some true ∧
            selects_field password (passwords a !! s_id u) = Some true) →
        ∃ user, route env sid (POST_login username password true) a
                = (Redirect "/detect", bound user) ∧
                user ∈ users (process a) ∧
                selects_field username (Some (s_username user)) = Some true ∧
                selects_field password (passwords a !! s_id user) = Some true) ∧
     (username ≠ Structured None → password ≠ Structured None →
      ¬ (∃ u, u ∈ users (process a) ∧
              selects_field username (Some (s_username u)) = Some true ∧
              selects_field password (passwords a !! s_id u) = Some true) →
        route env sid (POST_login username password true) a = (invalid, a)) ∧
     (username = Structured None ∨ password = Structured None →
        route env sid (POST_login username password true) a
        = (SendText 500 "Server error", a)) ∧
     route env sid (POST_login username password false) a
     = (SendText 500 "Server error", a)) ∧
  ∀ (username password : FormValue) (db_up : bool) (sid' : N),
    sid' ≠ sid →
    process (route env sid (POST_login username password db_up) a).2 = process a ∧
    passwords (route env sid (POST_login username password db_up) a).2 = passwords a ∧
    session_of (route env sid (POST_login username password db_up) a).2 sid'
    = session_of a sid'.
Proof.
  intros bound invalid.
  assert (∀ username password : FormValue,
            (∃ u, u ∈ users (process a) ∧
                  selects_field username (Some (s_username u)) = Some true ∧
                  selects_field password (passwords a !! s_id u) = Some true) →
            ∃ user, route env sid (POST_login username password true) a
                    = (Redirect "/detect", bound user) ∧
                    user ∈ users (process a) ∧
                    selects_field username (Some (s_username user)) = Some true ∧
                    selects_field password (passwords a !! s_id user) = Some true)
    as Hfound.
  { intros username password (u & Hu & Hn & Hp). unfold route.
    destruct (User_findOne username password a) as [[user|]|] eqn:Hf.
    - exists user. split; [done|]. by apply User_findOne_Some in Hf.
    - destruct (User_findOne_None _ _ _ Hf u Hu). done.
    - rewrite User_findOne_query in Hf; [done| |].
      + intros ->. done.
      + intros ->. done. }
  assert (∀ username password : FormValue,
            username ≠ Structured None → password ≠ Structured None →
            ¬ (∃ u, u ∈ users (process a) ∧
                    selects_field username (Some (s_username u)) = Some true ∧
                    selects_field password (passwords a !! s_id u) = Some true) →
            route env sid (POST_login username password true) a = (invalid, a))
    as Hnone.
  { intros username password Hcu Hcp Hno. unfold route.
    destruct (User_findOne username password a) as [[user|]|] eqn:Hf.
    - destruct Hno. exists user. by apply User_findOne_Some in Hf.
    - done.
    - by rewrite User_findOne_query in Hf. }
  split_and!.
  - intros name pw. split.
    + intros (u & Hu & Hn & Hp).
      destruct (Hfound (Text name) (Text pw)) as (user & Hr & Hin & Hsn & Hsp).
      { exists u. rewrite !selects_field_Text. split_and!; [done|by f_equal|done]. }
      exists user. apply selects_field_Text in Hsn, Hsp.
      split_and!; [done|done|congruence|done].
    + intros Hno. apply Hnone; [done|done|].
      intros (u & Hu & Hsn & Hsp). apply Hno. exists u.
      apply selects_field_Text in Hsn, Hsp. split_and!; [done|congruence|done].
  - intros x u Hu Hx.
    destruct (Hfound (Text (s_username u))
                (Structured (Some (λ field, negb (bool_decide (field = Some x))))))
      as (user & Hr & Hin & Hsn & Hsp).
    { exists u. rewrite selects_field_Text. split_and!; [done|done|]. simpl.
      by rewrite bool_decide_eq_false_2. }
    exists user. apply selects_field_Text in Hsn. simpl in Hsp.
    split_and!; [done|done|congruence|].
    injection Hsp as Hsp. apply negb_true_iff, bool_decide_eq_false in Hsp. done.
  - intros username password. split_and!.
    + apply Hfound.
    + apply Hnone.
    + intros Hthrew. unfold route. by rewrite User_findOne_threw.
    + done.
  - intros username password db_up sid' Hne. unfold route.
    destruct db_up; [|done].
    destruct (User_findOne username password a) as [[user|]|]; [|done|done].
    simpl. split_and!; [done|done|].
    unfold session_of. simpl. by rewrite lookup_insert_ne.
Qed.

Lemma app_step_can_login (env : Env) (a a' : App) (ev : Incoming)
    (r : option HttpResponse) (name pw : string) :
  app_step env a ev = Some (a', r) → can_login name pw a → can_login name pw a'.
Proof.
  intros Hstep (u & Hu & Hn & Hp).
  destruct ev as [m|sid h]; simpl in Hstep.
  - destruct (step (process a) _) as [[σ rep]|] eqn:Hs; [|done].
    injection Hstep as <- _. exists u. split_and!; [|done|done]. simpl.
    destruct m as [m|]; simpl in Hs; destruct (loader (process a));
      try done; by injection Hs as <- _.
  - destruct (route env sid h a) as [resp a1] eqn:Hr. injection Hstep as <- _.
    unfold route in Hr.
    destruct h as [| |n e p d y v st| |n p db| | | |tid p| |d y v| |image now|];
      try (injection Hr as _ <-; by exists u).
    + destruct (sess_user (session_of a sid)); injection Hr as _ <-; by exists u.
    + destruct (User_create _ _ _ _ _ _ _ _) as [[user a2]|] eqn:Hc.
      * injection Hr as _ <-.
        destruct (User_create_Some _ _ _ _ _ _ _ _ _ _ Hc)
          as (id & _ & Hfresh & _ & Hus & _ & _ & _ & _ & Hpw & _).
        exists u. simpl. rewrite Hus, Hpw. split_and!; [|done|].
        -- apply elem_of_app. by left.
        -- rewrite lookup_insert_ne; [done|]. intros ->. apply Hfresh.
           apply list_elem_of_fmap. by exists u.
      * injection Hr as _ <-. by exists u.
    + destruct (sess_user (session_of a sid)); injection Hr as _ <-; by exists u.
    + destruct db; [|injection Hr as _ <-; by exists u].
      destruct (User_findOne n p a) as [[?|]|]; injection Hr as _ <-; by exists u.
    + unfold requireLogin in Hr.
      destruct (sess_user (session_of a sid)); injection Hr as _ <-; by exists u.
    + case_match; injection Hr as _ <-; by exists u.
    + unfold requireTeacher in Hr.
      destruct (sess_isTeacher (session_of a sid)); injection Hr as _ <-; by exists u.
    + unfold requireTeacher in Hr.
      destruct (sess_isTeacher (session_of a sid)); injection Hr as _ <-; by exists u.
    + unfold requireLogin in Hr.
      destruct (sess_user (session_of a sid)) as [u0|]; [|injection Hr as _ <-; by exists u].
      set (req := {| session_id := s_id u0; session_username := s_username u0;
                     file := image; clock := now |}) in Hr.
      pose proof (detect_image_model req (process a)) as (_ & _ & Hus).
      destruct (detect_image req (process a)) as [o σ].
      injection Hr as _ <-. exists u. simpl in *. by rewrite Hus.
Qed.

Lemma app_run_can_login (env : Env) (evs : list Incoming) (name pw : string) :
  ∀ (a a' : App) rs,
    app_run env a evs = Some (a', rs) → can_login name pw a → can_login name pw a'.
Proof.
  induction evs as [|ev evs IH]; intros a a' rs Hrun Hc; simpl in Hrun.
  - by injection Hrun as <- _.
  - destruct (app_step env a ev) as [[a1 r]|] eqn:Hstep; [|done].
    destruct (app_run env a1 evs) as [[a2 rs']|] eqn:Hrest; [|done].
    injection Hrun as <- _.
    apply (IH _ _ _ Hrest). by apply (app_step_can_login _ _ _ _ _ _ _ Hstep).
Qed.

(** After a signup that was accepted, the user name and the password of the
    form log in from any session, whatever run of the application lies in
    between: no route changes or removes stored credentials. *)
Theorem signup_then_login (env : Env) (sid sid' : N) (name email pw : string)
    (d y v : option string) (st : option ObjectId) (a a1 a2 : App)
    (evs : list Incoming) (rs : list (option HttpResponse)) :
  route env sid (POST_signup name email pw d y v st) a = (Redirect "/detect", a1) →
  app_run env a1 evs = Some (a2, rs) →
  sess_user (session_of a1 sid)
  = Some {| s_id := default 0%N st; s_username := name; s_email := email;
            s_department := d; s_year := y; s_division := v;
            s_role := "student" |} ∧
  ∃ user a3,
    route env sid' (POST_login name pw true) a2 = (Redirect "/detect", a3) ∧
    sess_user (session_of a3 sid') = Some user ∧
    s_username user = name ∧ user ∈ users (process a2).
Proof.
  intros Hsign Hrun. unfold route in Hsign.
  destruct (User_create _ _ _ _ _ _ _ _) as [[user a0]|] eqn:Hc; [|done].
  injection Hsign as <-.
  destruct (User_create_Some _ _ _ _ _ _ _ _ _ _ Hc)
    as (id & -> & Hfresh & -> & Hus & _ & _ & _ & _ & Hpw & _).
  split; [by rewrite session_of_set_session|].
  assert (can_login name pw
            (set_session sid
               {| sess_user := Some {| s_id := id; s_username := name;
                    s_email := email; s_department := d; s_year := y;
                    s_division := v; s_role := "student" |};
                  sess_isTeacher := sess_isTeacher (session_of a sid) |} a0)) as Hcan.
  { eexists. simpl. rewrite Hus, Hpw. split_and!.
    - apply elem_of_app. right. left.
    - done.
    - simpl. apply lookup_insert_eq. }
  pose proof (app_run_can_login env evs name pw _ _ _ Hrun Hcan) as Hcan2.
  destruct Hcan2 as (u2 & Hu2 & Hn2 & Hp2).
  destruct (User_findOne name pw a2) as [[user|]|] eqn:Hf.
  - apply User_findOne_Some in Hf as Hfound. destruct Hfound as (Hin & Hn & _).
    apply selects_field_Text in Hn. injection Hn as Hn.
    eexists user, _. unfold route. rewrite Hf.
    split_and!; [reflexivity| |done|done].
    by rewrite session_of_set_session.
  - destruct (User_findOne_None _ _ _ Hf u2 Hu2).
    rewrite !selects_field_Text. split; [by f_equal|done].
  - by rewrite User_findOne_query in Hf.
Qed.

(** With the two environment variables unset or empty, the credentials
    written in the source open the teacher pages to any session. *)
Theorem default_teacher_credentials (env : Env) (sid : N) (a : App) :
  env_TEACHER_ID env = None ∨ env_TEACHER_ID env = Some EmptyString →
  env_TEACHER_PASSWORD env = None ∨ env_TEACHER_PASSWORD env = Some EmptyString →
  ∃ a', route env sid (POST_teacher_login (Some "teacher123") (Some "teacher@999")) a
        = (Redirect "/teacher/students", a') ∧
        sess_isTeacher (session_of a' sid) = true ∧
        route env sid GET_teacher_students_export a'
        = (SendCsv (teacher_export (users (process a)) (detections (process a))), a').
Proof.
  intros Hid Hpw.
  assert (TEACHER_ID env = "teacher123") as Ht
    by (unfold TEACHER_ID; by destruct Hid as [-> | ->]).
  assert (TEACHER_PASSWORD env = "teacher@999") as Hp
    by (unfold TEACHER_PASSWORD; by destruct Hpw as [-> | ->]).
  eexists. unfold route at 1. rewrite Ht, Hp. split_and!; [done| |].
  - by rewrite session_of_set_session.
  - unfold route, requireTeacher. by rewrite session_of_set_session.
Qed.

(** After [POST /logout] the session holds neither a user nor the teacher
    flag: the history page and uploads are sent to the login, the teacher
    pages to the teacher login; the process and the other sessions are as
    they were. *)
Theorem logout_closes_all_pages (env : Env) (sid : N) (a : App) :
  (route env sid POST_logout a).1 = Redirect "/" ∧
  process (route env sid POST_logout a).2 = process a ∧
  (∀ sid', sid' ≠ sid →
     sessions (route env sid POST_logout a).2 !! sid' = sessions a !! sid') ∧
  ∀ h, (user_page h →
          route env sid h (route env sid POST_logout a).2
          = (Redirect "/login", (route env sid POST_logout a).2)) ∧
       (teacher_page h →
          route env sid h (route env sid POST_logout a).2
          = (Redirect "/teacher-login", (route env sid POST_logout a).2)).
Proof.
  split_and!; [done|done| |].
  - intros sid' Hne. simpl. by rewrite lookup_delete_ne.
  - intros h. simpl. split.
    + intros [->|(image & now & ->)]; unfold route, requireLogin;
        by rewrite session_of_destroy.
    + intros [->|(d & y & v & ->)]; unfold route, requireTeacher;
        by rewrite session_of_destroy.
Qed.

(** [POST /teacher-logout] drops the teacher flag and nothing else: the
    teacher pages are sent to the teacher login, and a session with a user
    still gets its history page. *)
Theorem teacher_logout_keeps_user (env : Env) (sid : N) (a : App) :
  (route env sid POST_teacher_logout a).1 = Redirect "/" ∧
  sess_user (session_of (route env sid POST_teacher_logout a).2 sid)
  = sess_user (session_of a sid) ∧
  (∀ h, teacher_page h →
        route env sid h (route env sid POST_teacher_logout a).2
        = (Redirect "/teacher-login", (route env sid POST_teacher_logout a).2)) ∧
  ∀ u, sess_user (session_of a sid) = Some u →
       (route env sid GET_detect (route env sid POST_teacher_logout a).2).1
       = Render 200 "detect" {| sess_user := Some u; sess_isTeacher := false |}
           (WithHistory (detect_history (s_id u) (detections (process a)))).
Proof.
  split_and!; [done| | |].
  - simpl. by rewrite session_of_set_session.
  - intros h [->|(d & y & v & ->)]; simpl; unfold route, requireTeacher;
      by rewrite session_of_set_session.
  - intros u Hu. simpl. unfold route, requireLogin.
    rewrite session_of_set_session. simpl. by rewrite Hu.
Qed.

End Credentials.

(** ** The dashboard *)

Lemma field_ok_spec (q : option FormValue) (field : option string) :
  field_ok q field = Some true ↔
  match q with
  | None => True
  | Some (Text s) => s = EmptyString ∨ field = Some s
  | Some (Structured (Some sel)) => sel field = true
  | Some (Structured None) => False
  end.
Proof.
  destruct q as [[s|[sel|]]|]; simpl.
  - destruct (bool_decide (s = EmptyString)) eqn:Hs; simpl.
    + apply bool_decide_eq_true in Hs. split; [by left|done].
    + apply bool_decide_eq_false in Hs. split.
      * intros [= Hf%bool_decide_eq_true]. by right.
      * intros [?|Hf]; [done|]. by rewrite bool_decide_eq_true_2.
  - split; [by intros [= ?]|by intros ->].
  - done.
  - done.
Qed.

Lemma student_filter_spec (d y v : option FormValue) (u : User) :
  student_filter d y v u = true ↔
  s_role u = "student" ∧ field_ok d (s_department u) = Some true ∧
  field_ok y (s_year u) = Some true ∧ field_ok v (s_division u) = Some true.
Proof.
  unfold student_filter. rewrite !andb_true_iff, !bool_decide_eq_true. tauto.
Qed.

Lemma dashboard_students_query `{UserSort} (d y v : option FormValue) (us : list User) :
  d ≠ Some (Structured None) → y ≠ Some (Structured None) →
  v ≠ Some (Structured None) →
  dashboard_students d y v us
  = Some (sort_users (filter (λ u, student_filter d y v u = true) us)).
Proof.
  intros Hd Hy Hv. unfold dashboard_students.
  destruct d as [[?|[?|]]|], y as [[?|[?|]]|], v as [[?|[?|]]|]; done.
Qed.

(** The dashboard lists exactly the users with the role "student" whose
    department, year and division are the ones asked for: a string that is
    not empty must be the value of the field; a field that is not asked
    for, or asked for with the empty string, does not restrict the list;
    with no field asked for the list is the one of the export, up to the
    order.  A value of the query string that is no string (an array or an
    object, as [division[$ne]=A] gives) is always a condition, by the
    operators it holds; when it cannot be cast the query throws and the
    page is not answered. *)
Theorem dashboard_lists_matching_students `{UserSort} (us : list User) :
  let asked := λ (q : option FormValue) (field : option string),
    match q with
    | None => True
    | Some (Text s) => s = EmptyString ∨ field = Some s
    | Some (Structured (Some sel)) => sel field = true
    | Some (Structured None) => False
    end in
  (∀ d y v : option string,
     ∃ l, dashboard_students (Text <$> d) (Text <$> y) (Text <$> v) us = Some l ∧
          ∀ u, u ∈ l ↔
               u ∈ us ∧ s_role u = "student" ∧
               (∀ s, d = Some s → s ≠ EmptyString → s_department u = Some s) ∧
               (∀ s, y = Some s → s ≠ EmptyString → s_year u = Some s) ∧
               (∀ s, v = Some s → s ≠ EmptyString → s_division u = Some s)) ∧
  (∀ d y v : option FormValue,
     (d ≠ Some (Structured None) → y ≠ Some (Structured None) →
      v ≠ Some (Structured None) →
      ∃ l, dashboard_students d y v us = Some l ∧
           ∀ u, u ∈ l ↔
                u ∈ us ∧ s_role u = "student" ∧ asked d (s_department u) ∧
                asked y (s_year u) ∧ asked v (s_division u)) ∧
     (d = Some (Structured None) ∨ y = Some (Structured None) ∨
      v = Some (Structured None) →
      dashboard_students d y v us = None) ∧
     dashboard_students (Some (Text EmptyString)) y v us = dashboard_students None y v us ∧
     dashboard_students d (Some (Text EmptyString)) v us = dashboard_students d None v us ∧
     dashboard_students d y (Some (Text EmptyString)) us = dashboard_students d y None us) ∧
  (∀ (x : string) (u : User),
     u ∈ us → s_role u = "student" → s_division u ≠ Some x →
     ∃ l, dashboard_students None None
            (Some (Structured (Some (λ field, negb (bool_decide (field = Some x)))))) us
          = Some l ∧ u ∈ l ∧ ∀ u', u' ∈ l → s_division u' ≠ Some x) ∧
  ∃ l, dashboard_students None None None us = Some l ∧ l ≡ₚ find_students us.
Proof.
  intros asked.
  assert (∀ d y v : option FormValue,
            d ≠ Some (Structured None) → y ≠ Some (Structured None) →
            v ≠ Some (Structured None) →
            ∃ l, dashboard_students d y v us = Some l ∧
                 ∀ u, u ∈ l ↔
                      u ∈ us ∧ s_role u = "student" ∧ asked d (s_department u) ∧
                      asked y (s_year u) ∧ asked v (s_division u)) as Hgen.
  { intros d y v Hd Hy Hv. eexists. split; [by apply dashboard_students_query|].
    intros u. rewrite sort_users_perm, list_elem_of_filter, student_filter_spec.
    rewrite !field_ok_spec. unfold asked. tauto. }
  split_and!.
  - intros d y v.
    destruct (Hgen (Text <$> d) (Text <$> y) (Text <$> v)) as (l & Hl & Hin).
    { by destruct d. } { by destruct y. } { by destruct v. }
    exists l. split; [done|]. intros u. rewrite Hin.
    assert (∀ (q : option string) field,
              asked (Text <$> q) field ↔
              ∀ s, q = Some s → s ≠ EmptyString → field = Some s) as Hasked.
    { intros [s|] field; simpl.
      - split.
        + intros [->|Hf] s' [= <-] Hne; done.
        + intros Hq. destruct (decide (s = EmptyString)) as [?|Hne]; [by left|].
          right. by apply Hq.
      - split; [done|done]. }
    rewrite !Hasked. tauto.
  - intros d y v. split_and!.
    + apply Hgen.
    + intros Hthrew. unfold dashboard_students.
      destruct Hthrew as [-> |[-> | ->]]; [done| |].
      * destruct d as [[?|[?|]]|]; done.
      * destruct d as [[?|[?|]]|], y as [[?|[?|]]|]; done.
    + unfold dashboard_students.
      destruct y as [[?|[?|]]|], v as [[?|[?|]]|]; done.
    + unfold dashboard_students.
      destruct d as [[?|[?|]]|], v as [[?|[?|]]|]; done.
    + unfold dashboard_students.
      destruct d as [[?|[?|]]|], y as [[?|[?|]]|]; done.
  - intros x u Hu Hrole Hx.
    destruct (Hgen None None
                (Some (Structured (Some (λ field, negb (bool_decide (field = Some x)))))))
      as (l & Hl & Hin); [done|done|done|].
    exists l. split; [done|]. split.
    + apply Hin. unfold asked. split_and!; [done|done|done|done|].
      by rewrite bool_decide_eq_false_2.
    + intros u' Hu'. apply Hin in Hu' as (_ & _ & _ & _ & Hsel).
      unfold asked in Hsel. by apply negb_true_iff, bool_decide_eq_false in Hsel.
  - eexists. split; [done|]. unfold find_students. rewrite sort_users_perm.
    rewrite (list_filter_iff _ (λ u, s_role u = "student")); [done|].
    intros u. rewrite student_filter_spec. simpl. tauto.
Qed.

(** ** Concrete runs *)

(** The round trip: compliant at 1000, then non-compliant at 2000.  The
    entry of the subject is the one of the later document, in either
    storage order; a subject without documents has no entry. *)
Lemma latestPerSubject_round_trip :
  uniformMap (@Detection_aggregate stable_stage [round_trip_T1; round_trip_T2]) !! 1%N
  = Some {| _id := 1; lastIsCompliant := false; lastAt := 2000 |} ∧
  uniformMap (@Detection_aggregate stable_stage [round_trip_T1; round_trip_T2]) !! 7%N
  = None ∧
  lastAt <$> uniformMap (@Detection_aggregate stable_stage [round_trip_T2; round_trip_T1])
               !! 1%N
  = Some 2000.
Proof.
  destruct (@latestPerSubject_absent_or_newest stable_stage
              [round_trip_T1; round_trip_T2] 1%N) as (_ & _ & Hnewest & _ & Horder).
  destruct (@latestPerSubject_absent_or_newest stable_stage
              [round_trip_T1; round_trip_T2] 7%N) as (Habsent & _).
  split_and!.
  - apply (Hnewest round_trip_T2).
    + right. left.
    + reflexivity.
    + intros e' He' _ Hne.
      apply elem_of_cons in He' as [-> |He']; [reflexivity|].
      apply list_elem_of_singleton in He' as ->. done.
  - apply Habsent. reflexivity.
  - apply (Horder [round_trip_T2; round_trip_T1] round_trip_T2).
    + apply perm_swap.
    + right. left.
    + reflexivity.
    + intros e He _.
      apply elem_of_cons in He as [-> |He]; [discriminate|].
      apply list_elem_of_singleton in He as ->. discriminate.
Defined.

(** The export of two students against the map of the round trip. *)
Lemma report_rows_in_input_order_run :
  @export_csv millis [subject_S1; subject_S2]
    (uniformMap (@Detection_aggregate stable_stage [round_trip_T1; round_trip_T2]))
  = "Username,Email,Department,Year,Division,Uniform Status,Last Checked"
    +:+ nl +:+
    dq +:+ "s1" +:+ dq +:+ "," +:+ dq +:+ "s1@school.example" +:+ dq +:+ ","
    +:+ dq +:+ "CS" +:+ dq +:+ "," +:+ dq +:+ "2" +:+ dq +:+ ","
    +:+ dq +:+ "A" +:+ dq +:+ "," +:+ dq +:+ "No Data" +:+ dq +:+ ","
    +:+ dq +:+ dq +:+ nl +:+
    dq +:+ "s2" +:+ dq +:+ "," +:+ dq +:+ "s2@school.example" +:+ dq +:+ ","
    +:+ dq +:+ "CS" +:+ dq +:+ "," +:+ dq +:+ "2" +:+ dq +:+ ","
    +:+ dq +:+ "undefined" +:+ dq +:+ "," +:+ dq +:+ "Not in Uniform"
    +:+ dq +:+ "," +:+ dq +:+ "2000" +:+ dq +:+ nl.
Proof.
  destruct (@report_rows_in_input_order millis [subject_S1; subject_S2]
              (uniformMap (@Detection_aggregate stable_stage
                             [round_trip_T1; round_trip_T2]))) as (Htext & _).
  rewrite Htext. reflexivity.
Defined.

(** The export of two students, one without a detection and one whose
    newest detection says non-compliant, and of a teacher account that gets
    no line. *)
Lemma export_reports_newest_run :
  @teacher_export stable_stage millis
    [ subject_S1;
      {| s_id := 3; s_username := "t"; s_email := "t@school.example";
         s_department := None; s_year := None; s_division := None;
         s_role := "teacher" |};
      subject_S2 ]
    [round_trip_T2; round_trip_T1]
  = "Username,Email,Department,Year,Division,Uniform Status,Last Checked"
    +:+ nl +:+
    dq +:+ "s1" +:+ dq +:+ "," +:+ dq +:+ "s1@school.example" +:+ dq +:+ ","
    +:+ dq +:+ "CS" +:+ dq +:+ "," +:+ dq +:+ "2" +:+ dq +:+ ","
    +:+ dq +:+ "A" +:+ dq +:+ "," +:+ dq +:+ "No Data" +:+ dq +:+ ","
    +:+ dq +:+ dq +:+ nl +:+
    dq +:+ "s2" +:+ dq +:+ "," +:+ dq +:+ "s2@school.example" +:+ dq +:+ ","
    +:+ dq +:+ "CS" +:+ dq +:+ "," +:+ dq +:+ "2" +:+ dq +:+ ","
    +:+ dq +:+ "undefined" +:+ dq +:+ "," +:+ dq +:+ "Not in Uniform"
    +:+ dq +:+ "," +:+ dq +:+ "2000" +:+ dq +:+ nl.
Proof.
  destruct (@export_reports_newest stable_stage millis
              [ subject_S1;
                {| s_id := 3; s_username := "t"; s_email := "t@school.example";
                   s_department := None; s_year := None; s_division := None;
                   s_role := "teacher" |};
                subject_S2 ]
              [round_trip_T2; round_trip_T1])
    as ((st & date & Htext & Hrows) & _).
  rewrite Htext.
  destruct (Hrows subject_S1) as (Hnone & _).
  destruct (Hnone eq_refl) as (Hst1 & Hdate1).
  destruct (Hrows subject_S2) as (_ & Hnewest).
  destruct (Hnewest round_trip_T2) as (Hst2 & Hdate2).
  - left.
  - reflexivity.
  - intros e' He' _ Hne.
    apply elem_of_cons in He' as [-> |He']; [done|].
    apply list_elem_of_singleton in He' as ->. reflexivity.
  - change (filter (λ u : User, s_role u = "student") _)
      with [subject_S1; subject_S2].
    cbn [fmap list_fmap String.concat]. rewrite Hst1, Hdate1, Hst2, Hdate2.
    reflexivity.
Defined.

(** Against one stored user [s2] with the password [secret]: a wrong
    password is refused, and the operator [{ $ne: guess }] in its place logs
    the session in as [s2]. *)
Lemma login_with_operator_run :
  @route jpeg_only stable_stage unsorted_users millis unset_env 5
    (POST_login (Text "s2") (Text "guess") true) one_user_app
  = (Render 400 "users/login" {| sess_user := None; sess_isTeacher := false |}
       (WithError "Invalid username or password"), one_user_app) ∧
  @route jpeg_only stable_stage unsorted_users millis unset_env 5
    (POST_login (Text "s2") (op_ne "guess") true) one_user_app
  = (Redirect "/detect",
     @set_session jpeg_only 5 {| sess_user := Some subject_S2; sess_isTeacher := false |}
       one_user_app) ∧
  @route jpeg_only stable_stage unsorted_users millis unset_env 5
    (POST_login (Text "s2") (Structured None) true) one_user_app
  = (SendText 500 "Server error", one_user_app).
Proof.
  destruct (@login_checks_stored_credentials jpeg_only stable_stage unsorted_users
              millis unset_env 5%N one_user_app) as (Hstrings & Hop & Hany & _).
  split_and!.
  - apply (proj2 (Hstrings "s2" "guess")).
    intros (u & Hu & _ & Hp). apply list_elem_of_singleton in Hu as ->.
    vm_compute in Hp. discriminate Hp.
  - destruct (Hop "guess" subject_S2) as (user & Hr & Hin & _).
    + apply list_elem_of_singleton. reflexivity.
    + vm_compute. discriminate.
    + apply list_elem_of_singleton in Hin as ->. exact Hr.
  - destruct (Hany (Text "s2") (Structured None)) as (_ & _ & Hthrew & _).
    apply Hthrew. right. reflexivity.
Defined.

(** Of two students, one in division [A] and one without a division, the
    dashboard asked for the division [A] lists the first only, and asked
    with the operator [{ $ne: A }] the second only. *)
Lemma dashboard_filter_run :
  (∃ l, @dashboard_students unsorted_users None None (Some (Text "A"))
          [subject_S1; subject_S2] = Some l ∧
        subject_S1 ∈ l ∧ subject_S2 ∉ l) ∧
  (∃ l, @dashboard_students unsorted_users None None (Some (op_ne "A"))
          [subject_S1; subject_S2] = Some l ∧
        subject_S2 ∈ l ∧ subject_S1 ∉ l) ∧
  @dashboard_students unsorted_users None None (Some (Text "A")) [subject_S1; subject_S2]
  = Some [subject_S1].
Proof.
  destruct (@dashboard_lists_matching_students unsorted_users [subject_S1; subject_S2])
    as (Hstrings & _ & Hop & _).
  split_and!.
  - destruct (Hstrings None None (Some "A")) as (l & Hl & Hin).
    exists l. split; [exact Hl|]. split.
    + apply Hin. split_and!; try discriminate.
      * left.
      * reflexivity.
      * intros s Hs _. injection Hs as <-. reflexivity.
    + intros Hc. apply Hin in Hc as (_ & _ & _ & _ & Hdiv).
      assert (s_division subject_S2 = Some "A") as Hd
        by (apply (Hdiv "A"); [reflexivity|discriminate]).
      discriminate Hd.
  - destruct (Hop "A" subject_S2) as (l & Hl & Hin & Hall).
    + right. left.
    + reflexivity.
    + discriminate.
    + exists l. split; [exact Hl|]. split; [exact Hin|].
      intros Hc. by apply Hall in Hc.
  - reflexivity.
Defined.


Lemma teacher_pages_need_teacher_login_run :
  ∃ a' rs,
    @app_run jpeg_only stable_stage unsorted_users millis unset_env one_user_app
      ([post_teacher_login_default] ++
       @Web jpeg_only 5 GET_teacher_students_export :: [])
    = Some (a', rs) ∧
    (rs !! length [post_teacher_login_default]
     = Some (Some (Redirect "/teacher-login")) ∨
     @Web jpeg_only 5 (POST_teacher_login (Some (TEACHER_ID unset_env))
                         (Some (TEACHER_PASSWORD unset_env)))
       ∈ [post_teacher_login_default]).
Proof.
  destruct (@app_run jpeg_only stable_stage unsorted_users millis unset_env one_user_app
              ([post_teacher_login_default] ++
               @Web jpeg_only 5 GET_teacher_students_export :: []))
    as [[a' rs]|] eqn:E.
  - exists a', rs. split; [reflexivity|].
    apply (@teacher_pages_need_teacher_login jpeg_only stable_stage unsorted_users
             millis unset_env one_user_app a' [post_teacher_login_default] []
             5%N GET_teacher_students_export rs E).
    + reflexivity.
    + left. reflexivity.
  - vm_compute in E. discriminate E.
Defined.

Lemma user_pages_need_login_run :
  ∃ a' rs,
    @app_run jpeg_only stable_stage unsorted_users millis unset_env one_user_app
      ([post_login_s2] ++
       @Web jpeg_only 5 (POST_detect_image (Some jpeg_bytes) 1000) :: [])
    = Some (a', rs) ∧
    (rs !! length [post_login_s2] = Some (Some (Redirect "/login")) ∨
     (∃ name pw, @Web jpeg_only 5 (POST_login name pw true) ∈ [post_login_s2]) ∨
     (∃ name email pw d y v st,
        @Web jpeg_only 5 (POST_signup name email pw d y v st) ∈ [post_login_s2])).
Proof.
  destruct (@app_run jpeg_only stable_stage unsorted_users millis unset_env one_user_app
              ([post_login_s2] ++
               @Web jpeg_only 5 (POST_detect_image (Some jpeg_bytes) 1000) :: []))
    as [[a' rs]|] eqn:E.
  - exists a', rs. split; [reflexivity|].
    apply (@user_pages_need_login jpeg_only stable_stage unsorted_users
             millis unset_env one_user_app a' [post_login_s2] []
             5%N (POST_detect_image (Some jpeg_bytes) 1000) rs E).
    + reflexivity.
    + right. by exists (Some jpeg_bytes), 1000.
  - vm_compute in E. discriminate E.
Defined.

Lemma users_only_grow_run :
  ∃ a' rs,
    @app_run jpeg_only stable_stage unsorted_users millis unset_env one_user_app
      [@Web jpeg_only 6 post_signup_new; post_login_s2]
    = Some (a', rs) ∧
    ∃ added,
      @users jpeg_only (@process jpeg_only a')
      = @users jpeg_only (@process jpeg_only one_user_app) ++ added ∧
      Forall (λ u, s_role u = "student") added ∧
      (NoDup (s_id <$> @users jpeg_only (@process jpeg_only one_user_app)) →
       NoDup (s_id <$> @users jpeg_only (@process jpeg_only a'))).
Proof.
  destruct (@app_run jpeg_only stable_stage unsorted_users millis unset_env one_user_app
              [@Web jpeg_only 6 post_signup_new; post_login_s2])
    as [[a' rs]|] eqn:E.
  - exists a', rs. split; [reflexivity|].
    apply (@users_only_grow jpeg_only stable_stage unsorted_users millis
             unset_env [@Web jpeg_only 6 post_signup_new; post_login_s2]
             one_user_app a' rs E).
  - vm_compute in E. discriminate E.
Defined.

Lemma detections_refer_to_users_run :
  ∃ a' rs,
    @app_run jpeg_only stable_stage unsorted_users millis unset_env one_user_app
      [post_login_s2; @Web jpeg_only 5 (POST_detect_image (Some jpeg_bytes) 1000)]
    = Some (a', rs) ∧
    ∃ new,
      @detections jpeg_only (@process jpeg_only a')
      = @detections jpeg_only (@process jpeg_only one_user_app) ++ new ∧
      ∀ d, d ∈ new →
        consistent d ∧ source d = "upload" ∧
        ∃ u, u ∈ @users jpeg_only (@process jpeg_only a') ∧ user d = s_id u ∧
             username d = s_username u.
Proof.
  destruct (@app_run jpeg_only stable_stage unsorted_users millis unset_env one_user_app
              [post_login_s2;
               @Web jpeg_only 5 (POST_detect_image (Some jpeg_bytes) 1000)])
    as [[a' rs]|] eqn:E.
  - exists a', rs. split; [reflexivity|].
    apply (@detections_refer_to_users jpeg_only stable_stage unsorted_users millis
             unset_env
             [post_login_s2;
              @Web jpeg_only 5 (POST_detect_image (Some jpeg_bytes) 1000)]
             one_user_app a' rs); [|exact E].
    intros sid u Hu. discriminate Hu.
  - vm_compute in E. discriminate E.
Defined.

(** The run of the last lemma, spelled out: the upload is answered, and the
    document stored for it is the one of the user who logged in. *)
Example login_then_upload :
  (λ '(a', rs), (rs, @detections jpeg_only (@process jpeg_only a'))) <$>
    @app_run jpeg_only stable_stage unsorted_users millis unset_env one_user_app
      [post_login_s2; @Web jpeg_only 5 (POST_detect_image (Some jpeg_bytes) 1000)]
  = Some ([ Some (Redirect "/detect");
            Some (FromHandler (Done (Json 200 (ResultBody "uniform"
                                                (Some (Fin (Q2Qc (9 # 10)))))))) ],
          [ {| user := 1; username := "s2"; label := "uniform";
               confidence := Some (Fin (Q2Qc (9 # 10))); isCompliant := true;
               source := "upload"; createdAt := 1000 |} ]).
Proof. by vm_compute. Qed.

Lemma signup_then_login_run :
  sess_user
    (@session_of jpeg_only
       (@route jpeg_only stable_stage unsorted_users millis unset_env 6
          post_signup_new one_user_app).2 6%N)
  = Some {| s_id := default 0%N (Some 2%N); s_username := "new";
            s_email := "new@school.example";
            s_department := None; s_year := Some "1"; s_division := None;
            s_role := "student" |} ∧
  ∃ user a3,
    @route jpeg_only stable_stage unsorted_users millis unset_env 7
      (POST_login "new" "pw" true)
      (@route jpeg_only stable_stage unsorted_users millis unset_env 6 POST_logout
         (@route jpeg_only stable_stage unsorted_users millis unset_env 6
            post_signup_new one_user_app).2).2
    = (Redirect "/detect", a3) ∧
    sess_user (@session_of jpeg_only a3 7%N) = Some user ∧
    s_username user = "new" ∧
    user ∈ @users jpeg_only (@process jpeg_only
      (@route jpeg_only stable_stage unsorted_users millis unset_env 6 POST_logout
         (@route jpeg_only stable_stage unsorted_users millis unset_env 6
            post_signup_new one_user_app).2).2).
Proof.
  apply (@signup_then_login jpeg_only stable_stage unsorted_users millis
           unset_env 6%N 7%N "new" "new@school.example" "pw"
           None (Some "1") None (Some 2%N) one_user_app
           (@route jpeg_only stable_stage unsorted_users millis unset_env 6
              post_signup_new one_user_app).2
           (@route jpeg_only stable_stage unsorted_users millis unset_env 6 POST_logout
              (@route jpeg_only stable_stage unsorted_users millis unset_env 6
                 post_signup_new one_user_app).2).2
           [@Web jpeg_only 6 POST_logout] [Some (Redirect "/")]);
    reflexivity.
Defined.

Lemma default_teacher_credentials_unset :
  ∃ a',
    @route jpeg_only stable_stage unsorted_users millis unset_env 5
      (POST_teacher_login (Some "teacher123") (Some "teacher@999")) one_user_app
    = (Redirect "/teacher/students", a') ∧
    sess_isTeacher (@session_of jpeg_only a' 5%N) = true ∧
    @route jpeg_only stable_stage unsorted_users millis unset_env 5
      GET_teacher_students_export a'
    = (SendCsv (@teacher_export stable_stage millis
                  (@users jpeg_only (@process jpeg_only one_user_app))
                  (@detections jpeg_only (@process jpeg_only one_user_app))), a').
Proof.
  apply (@default_teacher_credentials jpeg_only stable_stage unsorted_users millis
           unset_env 5%N one_user_app); left; reflexivity.
Defined.
